(** * Task MCP App: a shallow embedding of [server.ts] and of the UI script

    The repository wraps two REST calls of a remote task service
    ([GetTasks], [CreateTask]) as MCP tools ([list-tasks], [add-task]) and
    ships a small UI script that renders the tool results.

    - Part 1 models the values the program handles: JSON values, thrown
      values, settled promises.
    - Part 2 models the Task Client ([fetchTasks], [createTask]) and the two
      tool handlers over an explicit world: the remote service and the log of
      the requests sent to it.
    - Part 3 models the UI controller ([showStatus], [renderTasks],
      [handleToolResult], [addTask]) over an explicit record of the DOM
      state it writes.
    - Part 4 states and proves the properties. *)

From Stdlib Require Import Ascii String.
From stdpp Require Import gmap strings list pretty.

Set Warnings "-register-all".
Open Scope string_scope.

(** * Part 1: values *)

(** What [JSON.parse] can produce, and what the handlers build with object
    and array literals. Numbers are the integers ([Id], [Priority], [Status],
    lengths and HTTP status codes are all integers); an object is a finite
    map from property names to values. *)
Inductive value : Type :=
  | JNull
  | JBool (b : bool)
  | JNum (n : Z)
  | JStr (s : string)
  | JArr (l : list value)
  | JObj (m : gmap string value).

(** A string is truthy unless it is empty. *)
Definition truthy_string (s : string) : bool :=
  match s with
  | EmptyString => false
  | String _ _ => true
  end.

(** The double quote and the line feed, for the template literals that
    contain them. *)
Definition dquote : string := String "034"%char EmptyString.
Definition nl : string := String "010"%char EmptyString.

(** The properties that object spread [{...v}] copies: the own enumerable
    properties of [v]. An object gives its properties, an array its elements
    under their indices, a string its characters under their indices, and
    [null], booleans and numbers give nothing. (Strings hold the UTF-8
    bytes of their text; the spread of a string is by character, which the
    model renders byte by byte, the same thing for ASCII text.) *)
Definition index_props {A} (f : A → value) (l : list A) : gmap string value :=
  list_to_map (imap (λ i x, (pretty i, f x)) l).

Definition char_value (c : ascii) : value := JStr (String c EmptyString).

Definition spread (v : value) : gmap string value :=
  match v with
  | JObj m => m
  | JArr l => index_props id l
  | JStr s => index_props char_value (list_ascii_of_string s)
  | JNull | JBool _ | JNum _ => ∅
  end.

(** The property read [v.k] on a non-null [v], for a key [k] that is not
    [length] and is not inherited from a prototype: every key this program
    reads ([Priority], [Status], [Title], ...) is such a key. [None] is
    [undefined]. *)
Definition get (v : value) (k : string) : option value := spread v !! k.

(** [o ?? d]: [d] when [o] is [undefined] or [null], else [o]. *)
Definition nullish_coalesce (o : option value) (d : value) : value :=
  match o with
  | None | Some JNull => d
  | Some v => v
  end.

Notation "o ?? d" := (nullish_coalesce o d) (at level 45, left associativity).

(** What a [throw] or a rejected promise carries. Every throw of this
    program carries an [Error] instance ([new Error(...)], the [TypeError]
    of [fetch] and of a failed property read, the [SyntaxError] of
    [res.json()]); [ThrownValue] stands for any other thrown value and holds
    what [String(e)] gives for it. *)
Inductive error_class := Error | TypeError | SyntaxError.

Inductive thrown :=
  | ThrownError (c : error_class) (message : string)
  | ThrownValue (as_string : string).

(** A settled promise, or the result of a call that may throw. *)
Inductive outcome (A : Type) :=
  | Fulfilled (a : A)
  | Rejected (e : thrown).
Arguments Fulfilled {A} a.
Arguments Rejected {A} e.

(** [Array.prototype.map] with a callback that may throw: elements are
    visited in order and the first throw ends the call. *)
Fixpoint array_map {A B} (f : A → outcome B) (l : list A) : outcome (list B) :=
  match l with
  | [] => Fulfilled []
  | x :: l' =>
      match f x with
      | Rejected e => Rejected e
      | Fulfilled y =>
          match array_map f l' with
          | Rejected e => Rejected e
          | Fulfilled ys => Fulfilled (y :: ys)
          end
      end
  end.

(** * Part 2: the server *)

(** ** The remote service and the world *)

Record Request := {
  url : string;
  method : string;
  headers : list (string * string);
  body : option value;   (* the value that [JSON.stringify] serialises *)
}.

(** A response, with the settled results of its [text()] and [json()]
    readers (each call site reads the body once, with one of them). *)
Record Response := {
  status : N;
  statusText : string;
  text : outcome string;
  json : outcome value;
}.

(** [res.ok]: the status is in the range 200-299. *)
Definition ok (res : Response) : bool :=
  (200 <=? status res)%N && (status res <=? 299)%N.

(** The world of the server: the environment variable, the remote service
    as a function of the requests it has received so far (the last one is the
    one it answers; [Rejected] is a [fetch] that fails before any response),
    and the log of the requests sent. *)
Record World := {
  env_TASK_API_BASE : option string;
  remote : list Request → outcome Response;
  sent : list Request;
}.

(** Asynchronous code over the world: run to completion, it changes the
    world and settles. *)
Definition M (A : Type) : Type := World → outcome A * World.

Definition ret {A} (a : A) : M A := λ w, (Fulfilled a, w).
Definition throw {A} (e : thrown) : M A := λ w, (Rejected e, w).
Definition bind {A B} (m : M A) (k : A → M B) : M B := λ w,
  match m w with
  | (Fulfilled a, w') => k a w'
  | (Rejected e, w') => (Rejected e, w')
  end.
Definition await {A} (o : outcome A) : M A := λ w, (o, w).
Definition try_catch {A} (m : M A) (h : thrown → M A) : M A := λ w,
  match m w with
  | (Fulfilled a, w') => (Fulfilled a, w')
  | (Rejected e, w') => h e w'
  end.

Notation "'let*' x ':=' m 'in' k" := (bind m (λ x, k))
  (at level 10, x name, m at level 100, k at level 200, only parsing).

(** [fetch]: the request is logged and the remote service settles it. *)
Definition logged (req : Request) (w : World) : World :=
  {| env_TASK_API_BASE := env_TASK_API_BASE w;
     remote := remote w;
     sent := (sent w ++ [req])%list |}.

Definition fetch (req : Request) : M Response := λ w,
  (remote w (sent w ++ [req])%list, logged req w).

(** ** Task Client *)

Definition TASK_API_BASE (w : World) : string :=
  match env_TASK_API_BASE w with
  | Some s =>
      if truthy_string s then s
      else "https://xxx.outsystems.app/TaskManagementAPI/rest/Mcp"
  | None => "https://xxx.outsystems.app/TaskManagementAPI/rest/Mcp"
  end.

(** [await res.text().catch(() => "")] *)
Definition text_or_empty (res : Response) : string :=
  match text res with
  | Fulfilled s => s
  | Rejected _ => ""
  end.

(** The message of the error thrown on a response that is not [ok]. *)
Definition failed_message (endpoint : string) (res : Response) : string :=
  let errorDetail := text_or_empty res in
  endpoint ++ " failed: " ++ pretty (status res) ++ " " ++ statusText res
    ++ (if truthy_string errorDetail then " - " ++ errorDetail else "").

(** The callback of [data.map] in [fetchTasks]:
    [{...task, Priority: task.Priority ?? 0, Status: task.Status ?? 0}].
    [with_defaults] is the object it builds; reading a property of [null]
    throws instead. *)
Definition with_defaults (task : value) : value :=
  JObj (<["Status" := get task "Status" ?? JNum 0]>
       (<["Priority" := get task "Priority" ?? JNum 0]>
        (spread task))).

Definition fill_defaults (task : value) : outcome value :=
  match task with
  | JNull =>
      Rejected (ThrownError TypeError
        "Cannot read properties of null (reading 'Priority')")
  | _ => Fulfilled (with_defaults task)
  end.

(** [data.map(...)] on what [res.json()] gave: only an array has a callable
    [map]. *)
Definition data_map (f : value → outcome value) (data : value) : outcome (list value) :=
  match data with
  | JArr l => array_map f l
  | JNull =>
      Rejected (ThrownError TypeError
        "Cannot read properties of null (reading 'map')")
  | _ => Rejected (ThrownError TypeError "data.map is not a function")
  end.

Definition GetTasks_request (w : World) : Request :=
  {| url := TASK_API_BASE w ++ "/GetTasks"; method := "GET";
     headers := []; body := None |}.

Definition fetchTasks : M (list value) := λ w,
  (let* res := fetch (GetTasks_request w) in
   if negb (ok res) then
     throw (ThrownError Error (failed_message "GetTasks" res))
   else
     let* data := await (json res) in
     await (data_map fill_defaults data)) w.

Definition CreateTask_request (w : World) (task : gmap string value) : Request :=
  {| url := TASK_API_BASE w ++ "/CreateTask"; method := "POST";
     headers := [("Content-Type", "application/json")];
     body := Some (JObj {[ "Task" := JObj task ]}) |}.

Definition createTask (task : gmap string value) : M value := λ w,
  (let* res := fetch (CreateTask_request w task) in
   if negb (ok res) then
     throw (ThrownError Error (failed_message "CreateTask" res))
   else
     await (json res)) w.

(** ** Tool Layer *)

(** The [CallToolResult] both handlers return: one text block and the
    structured content [{tasks, error}]. *)
Definition text_block (s : string) : value :=
  JObj {[ "type" := JStr "text"; "text" := JStr s ]}.

Definition structured (tasks : list value) (error : value) : value :=
  JObj {[ "tasks" := JArr tasks; "error" := error ]}.

Definition tool_result (s : string) (tasks : list value) (error : value) : value :=
  JObj {[ "content" := JArr [text_block s];
          "structuredContent" := structured tasks error ]}.

(** [e instanceof Error ? e.message : String(e)] *)
Definition message_of (e : thrown) : string :=
  match e with
  | ThrownError _ message => message
  | ThrownValue as_string => as_string
  end.

(** The [catch] block, the same in both handlers: [failure] is the result
    it returns. *)
Definition failure (e : thrown) : value :=
  let msg := message_of e in
  tool_result ("エラー: " ++ msg) [] (JStr msg).

Definition error_result (e : thrown) : M value := ret (failure e).

(** The handler of [list-tasks]. *)
Definition list_tasks : M value :=
  try_catch
    (let* tasks := fetchTasks in
     ret (tool_result (pretty (length tasks) ++ " 件のタスクを UI に表示しました。")
            tasks JNull))
    error_result.

(** The task that the handler of [add-task] hands to [createTask]. *)
Definition new_task (Title Description DueDate : string) : gmap string value :=
  {[ "Title" := JStr Title;
     "Description" := JStr Description;
     "Priority" := JNum 1;
     "DueDate" := JStr DueDate;
     "Status" := JNum 0 ]}.

(** The handler of [add-task]; its arguments have passed the input schema,
    three strings. *)
Definition add_task (Title Description DueDate : string) : M value :=
  try_catch
    (let* _ := createTask (new_task Title Description DueDate) in
     let* tasks := fetchTasks in
     ret (tool_result ("タスク " ++ dquote ++ Title ++ dquote ++ " を追加しました。")
            tasks JNull))
    error_result.

(** ** Invocations *)

(** A tool call that the server hands to one of its two handlers: the name
    is one of the registered ones and the arguments have passed the input
    schema. [serve] runs such calls one after the other and collects what
    the handlers settle with. *)
Inductive invocation :=
  | ListTasks
  | AddTask (Title Description DueDate : string).

Definition invoke (i : invocation) : M value :=
  match i with
  | ListTasks => list_tasks
  | AddTask Title Description DueDate => add_task Title Description DueDate
  end.

Fixpoint serve (calls : list invocation) (w : World) : list (outcome value) * World :=
  match calls with
  | [] => ([], w)
  | i :: rest =>
      let '(r, w1) := invoke i w in
      let '(rs, w2) := serve rest w1 in
      (r :: rs, w2)
  end.

(** ** Remote services to run the server against *)

(** A service that answers every request with the same response. *)
Definition constant_service (res : Response) : list Request → outcome Response :=
  λ _, Fulfilled res.

(** A service that answers the i-th request with the i-th entry of a script,
    and fails at the network level once the script is over. *)
Definition scripted_service (script : list (outcome Response))
  : list Request → outcome Response :=
  λ log, default (Rejected (ThrownError TypeError "fetch failed"))
                 (script !! pred (length log)).

Definition respond (st : N) (st_text : string) (tx : outcome string)
    (js : outcome value) : Response :=
  {| status := st; statusText := st_text; text := tx; json := js |}.

Definition ok_json (v : value) : Response :=
  respond 200 "OK" (Rejected (ThrownError TypeError "Body is unusable")) (Fulfilled v).

(** A service that keeps the tasks it was asked to create, numbers them and
    lists them, omitting [Priority] and [Status] when they are 0. *)
Definition stored_task (i : nat) (req : Request) : option value :=
  match body req with
  | Some (JObj b) =>
      match b !! "Task" with
      | Some (JObj t) =>
          let t1 := match t !! "Priority" with
                    | Some (JNum 0) => delete "Priority" t
                    | _ => t
                    end in
          let t2 := match t !! "Status" with
                    | Some (JNum 0) => delete "Status" t1
                    | _ => t1
                    end in
          Some (JObj (<["Id" := JNum (Z.of_nat (S i))]> t2))
      | _ => None
      end
  | _ => None
  end.

Definition memory_service : list Request → outcome Response := λ log,
  let posts := filter (λ r, method r = "POST") log in
  let store := omap id (imap stored_task posts) in
  match last log with
  | Some req =>
      if decide (method req = "POST")
      then Fulfilled (ok_json (default JNull (last store)))
      else Fulfilled (ok_json (JArr store))
  | None => Rejected (ThrownError TypeError "fetch failed")
  end.

Definition world (service : list Request → outcome Response) : World :=
  {| env_TASK_API_BASE := None; remote := service; sent := [] |}.

(** A task as the service lists it when its [Priority] and [Status] are 0,
    and the same task as [fetchTasks] returns it. *)
Definition buy_milk_wire : value :=
  JObj {[ "Id" := JNum 1; "Title" := JStr "Buy milk"; "Description" := JStr "";
          "DueDate" := JStr "2024-01-01T00:00:00Z" ]}.

Definition buy_milk : value :=
  JObj {[ "Id" := JNum 1; "Title" := JStr "Buy milk"; "Description" := JStr "";
          "Priority" := JNum 0; "DueDate" := JStr "2024-01-01T00:00:00Z";
          "Status" := JNum 0 ]}.

(** The task of the scenarios of [add-task], as the handler builds it and
    as a service returns it once created. *)
Definition test_task : gmap string value :=
  new_task "Test" "" "2024-02-02T00:00:00Z".

Definition test_created (id : Z) : value := JObj (<["Id" := JNum id]> test_task).

(** The response of a service whose database is down. *)
Definition db_down : Response :=
  respond 500 "Internal Server Error" (Fulfilled "db down")
    (Rejected (ThrownError SyntaxError "Unexpected token d in JSON at position 0")).

(** A service that accepts a create and then lists nothing. *)
Definition forgetful_service : list Request → outcome Response :=
  scripted_service
    [ Fulfilled (ok_json (test_created 7)); Fulfilled (ok_json (JArr [])) ].

(** A service that accepts a create and then is down. *)
Definition failing_service : list Request → outcome Response :=
  scripted_service [ Fulfilled (ok_json (test_created 7)); Fulfilled db_down ].

(** * Part 3: the UI controller *)

Module UI.

(** ** Types of the UI script *)

Record Task := {
  Id : Z;
  Title : string;
  Description : string;
  Priority : Z;
  DueDate : string;
  Status : Z;
}.

(** [TaskResult], as [handleToolResult] reads it: it guards against a
    missing [tasks], and [error] is a string or [null]. *)
Record TaskResult := {
  tasks : option (list Task);
  error : option string;
}.

(** The part of a [CallToolResult] that the controller reads. *)
Record CallToolResult := {
  isError : option bool;
  structuredContent : option TaskResult;
}.

(** A call [app.callServerTool({name, arguments: {Title, Description, DueDate}})]. *)
Record ToolCall := {
  name : string;
  arg_Title : string;
  arg_Description : string;
  arg_DueDate : string;
}.

(** What the controller reads and writes: the DOM elements it holds, the
    timeouts it has set and not yet seen fire (each hides the status
    element), and the tool calls it has made. *)
Record Dom := {
  taskListEl_innerHTML : string;
  countEl_textContent : string;
  statusEl_textContent : string;
  statusEl_display : string;
  titleInput_value : string;
  descInput_value : string;
  dateInput_value : string;
  timeouts : list N;
  calls : list ToolCall;
}.

Definition set_status (txt disp : string) (timers : list N) (d : Dom) : Dom :=
  {| taskListEl_innerHTML := taskListEl_innerHTML d;
     countEl_textContent := countEl_textContent d;
     statusEl_textContent := txt;
     statusEl_display := disp;
     titleInput_value := titleInput_value d;
     descInput_value := descInput_value d;
     dateInput_value := dateInput_value d;
     timeouts := timers;
     calls := calls d |}.

Definition set_list (count html : string) (d : Dom) : Dom :=
  {| taskListEl_innerHTML := html;
     countEl_textContent := count;
     statusEl_textContent := statusEl_textContent d;
     statusEl_display := statusEl_display d;
     titleInput_value := titleInput_value d;
     descInput_value := descInput_value d;
     dateInput_value := dateInput_value d;
     timeouts := timeouts d;
     calls := calls d |}.

Definition set_inputs (t de da : string) (d : Dom) : Dom :=
  {| taskListEl_innerHTML := taskListEl_innerHTML d;
     countEl_textContent := countEl_textContent d;
     statusEl_textContent := statusEl_textContent d;
     statusEl_display := statusEl_display d;
     titleInput_value := t;
     descInput_value := de;
     dateInput_value := da;
     timeouts := timeouts d;
     calls := calls d |}.

Definition add_call (c : ToolCall) (d : Dom) : Dom :=
  {| taskListEl_innerHTML := taskListEl_innerHTML d;
     countEl_textContent := countEl_textContent d;
     statusEl_textContent := statusEl_textContent d;
     statusEl_display := statusEl_display d;
     titleInput_value := titleInput_value d;
     descInput_value := descInput_value d;
     dateInput_value := dateInput_value d;
     timeouts := timeouts d;
     calls := (calls d ++ [c])%list |}.

(** ** Helpers *)

Definition STATUS_LABELS (s : Z) : option string :=
  match s with
  | 0%Z => Some "未着手"
  | 1%Z => Some "完了"
  | _ => None
  end.

(** [STATUS_LABELS[s] ?? s], as the template prints it. *)
Definition status_label (s : Z) : string := default (pretty s) (STATUS_LABELS s).

(** [escapeHtml]: the text is stored in a [div] and read back as markup,
    which writes [&], [<], [>] and the no-break space (bytes 194 160 in the
    UTF-8 text) as entities. *)
Fixpoint escapeHtml (s : string) : string :=
  match s with
  | EmptyString => EmptyString
  | String c rest =>
      match N_of_ascii c with
      | 38%N => "&amp;" ++ escapeHtml rest
      | 60%N => "&lt;" ++ escapeHtml rest
      | 62%N => "&gt;" ++ escapeHtml rest
      | 194%N =>
          match rest with
          | String c' rest' =>
              if (N_of_ascii c' =? 160)%N then "&nbsp;" ++ escapeHtml rest'
              else String c (escapeHtml rest)
          | EmptyString => String c EmptyString
          end
      | _ => String c (escapeHtml rest)
      end
  end.

(** [String.prototype.trim] removes white space and line terminators from
    both ends. On the UTF-8 text these are the bytes 9-13 and 32, the pair
    194 160 (U+00A0) and the triples of U+1680, U+2000-U+200A, U+2028,
    U+2029, U+202F, U+205F, U+3000 and U+FEFF. *)
Definition white_space_1 (a : N) : bool :=
  ((9 <=? a) && (a <=? 13) || (a =? 32))%N.

Definition white_space_2 (a b : N) : bool :=
  ((a =? 194) && (b =? 160))%N.

Definition white_space_3 (a b c : N) : bool :=
  ((a =? 225) && (b =? 154) && (c =? 128)
   || (a =? 226) && (b =? 128)
        && ((128 <=? c) && (c <=? 138) || (c =? 168) || (c =? 169) || (c =? 175))
   || (a =? 226) && (b =? 129) && (c =? 159)
   || (a =? 227) && (b =? 128) && (c =? 128)
   || (a =? 239) && (b =? 187) && (c =? 191))%N.

(** Removal of the leading white space of a list of bytes; [back] tells that
    the list is a reversed text, so that the bytes of a character come last
    byte first. *)
Fixpoint strip (back : bool) (l : list N) : list N :=
  match l with
  | a :: r1 =>
      if white_space_1 a then strip back r1
      else
        match r1 with
        | b :: r2 =>
            if (if back then white_space_2 b a else white_space_2 a b)
            then strip back r2
            else
              match r2 with
              | c :: r3 =>
                  if (if back then white_space_3 c b a else white_space_3 a b c)
                  then strip back r3
                  else l
              | [] => l
              end
        | [] => l
        end
  | [] => l
  end.

Definition bytes (s : string) : list N := N_of_ascii <$> list_ascii_of_string s.
Definition of_bytes (l : list N) : string := string_of_list_ascii (ascii_of_N <$> l).

Definition trim (s : string) : string :=
  of_bytes (reverse (strip true (reverse (strip false (bytes s))))).

Section Controller.

(** The two date conversions of the platform: [new
    Date(iso).toLocaleDateString("ja-JP")], which depends on the time zone
    of the browser, and [new Date(s).toISOString()], which throws a
    [RangeError] on a text that is not a date. *)
Variable toLocaleDateString : string → string.
Variable toISOString : string → outcome string.

Definition formatDate (iso : string) : string :=
  if negb (truthy_string iso) then "" else toLocaleDateString iso.

(** [showStatus]: the message is shown and a timeout of 2000 ms is set. *)
Definition showStatus (message : string) (d : Dom) : Dom :=
  set_status message "block" (timeouts d ++ [2000%N])%list d.

(** A timeout fires: the status element is hidden. *)
Definition timeout_fires (d : Dom) : Dom :=
  match timeouts d with
  | [] => d
  | _ :: rest => set_status (statusEl_textContent d) "none" rest d
  end.

(** ** Rendering *)

Definition task_item (t : Task) : string :=
  nl ++ "      <div class=" ++ dquote ++ "task-item" ++ dquote ++ ">"
  ++ nl ++ "        <div class=" ++ dquote ++ "task-header" ++ dquote ++ ">"
  ++ nl ++ "          <span class=" ++ dquote ++ "task-title" ++ dquote ++ ">"
     ++ escapeHtml (Title t) ++ "</span>"
  ++ nl ++ "          <span class=" ++ dquote ++ "badge status-" ++ pretty (Status t)
     ++ dquote ++ ">" ++ status_label (Status t) ++ "</span>"
  ++ nl ++ "        </div>"
  ++ nl ++ "        "
     ++ (if truthy_string (Description t)
         then "<div class=" ++ dquote ++ "task-desc" ++ dquote ++ ">"
              ++ escapeHtml (Description t) ++ "</div>"
         else "")
  ++ nl ++ "        "
     ++ (if truthy_string (DueDate t)
         then "<div class=" ++ dquote ++ "task-date" ++ dquote ++ ">期限: "
              ++ formatDate (DueDate t) ++ "</div>"
         else "")
  ++ nl ++ "      </div>"
  ++ nl ++ "    ".

Definition empty_placeholder : string :=
  "<div class=" ++ dquote ++ "empty" ++ dquote
  ++ ">タスクはまだありません。上のフォームから追加してください。</div>".

(** The markup [renderTasks] gives the list element. *)
Definition list_markup (ts : list Task) : string :=
  match ts with
  | [] => empty_placeholder
  | _ => String.concat "" (task_item <$> ts)
  end.

Definition renderTasks (ts : list Task) (d : Dom) : Dom :=
  set_list (pretty (length ts) ++ " 件") (list_markup ts) d.

(** ** Tool results *)

Definition truthy_flag (o : option bool) : bool := default false o.

Definition truthy_error (o : option string) : bool :=
  match o with
  | Some s => truthy_string s
  | None => false
  end.

Definition handleToolResult (result : CallToolResult) (d : Dom) : Dom :=
  if truthy_flag (isError result) then showStatus "エラーが発生しました" d
  else
    let data := structuredContent result in
    if truthy_error (data ≫= error)
    then showStatus ("エラー: " ++ default "" (data ≫= error)) d
    else
      match data ≫= tasks with
      | Some ts =>
          let d' := renderTasks ts d in
          set_status (statusEl_textContent d') "none" (timeouts d') d'
      | None => d
      end.

(** [app.ontoolresult]: a result pushed by the host is handled like the
    result of a call (it is also written to the console, which the model
    leaves out). *)
Definition ontoolresult (result : CallToolResult) (d : Dom) : Dom :=
  handleToolResult result d.

(** ** Adding a task *)

(** [addTask] up to its [await]: it returns at once on a blank title
    ([Fulfilled None]), throws if the date cannot be converted, and
    otherwise clears the inputs, shows a status and makes the call it then
    waits for. [now] is the current instant as [new Date().toISOString()]
    gives it. *)
Definition addTask_start (now : string) (d : Dom) : outcome (option ToolCall) * Dom :=
  let Title := trim (titleInput_value d) in
  if negb (truthy_string Title) then (Fulfilled None, d)
  else
    let Description := trim (descInput_value d) in
    match (if truthy_string (dateInput_value d)
           then toISOString (dateInput_value d)
           else Fulfilled now) with
    | Rejected e => (Rejected e, d)
    | Fulfilled DueDate =>
        let call := {| name := "add-task"; arg_Title := Title;
                       arg_Description := Description; arg_DueDate := DueDate |} in
        (Fulfilled (Some call),
         add_call call (showStatus "追加中..." (set_inputs "" "" "" d)))
    end.

(** [addTask] from the moment the call settles. *)
Definition addTask_resume (settled : outcome CallToolResult) (d : Dom) : Dom :=
  match settled with
  | Fulfilled result => showStatus "追加しました！" (handleToolResult result d)
  | Rejected _ => showStatus "追加に失敗しました" d
  end.

(** [addTask] with nothing else happening while it waits. *)
Definition addTask (now : string) (settled : outcome CallToolResult) (d : Dom) : Dom :=
  match addTask_start now d with
  | (Fulfilled (Some _), d') => addTask_resume settled d'
  | (_, d') => d'
  end.

(** ** The event loop *)

(** What can happen to the page: the host pushes a tool result, the add
    button is clicked, a key goes down in the title input, a pending
    [callServerTool] settles, a timeout elapses. [now] is the instant of the
    event as [new Date().toISOString()] gives it. *)
Inductive event :=
  | ToolResultPushed (result : CallToolResult)
  | AddClicked (now : string)
  | KeyDown (key : string) (now : string)
  | CallSettled (settled : outcome CallToolResult)
  | TimeoutElapsed.

(** The page: its DOM and the number of [addTask] runs that wait for their
    call to settle. *)
Record Page := {
  dom : Dom;
  awaiting : nat;
}.

Definition submit (now : string) (p : Page) : Page :=
  match addTask_start now (dom p) with
  | (Fulfilled (Some _), d') => {| dom := d'; awaiting := S (awaiting p) |}
  | (_, d') => {| dom := d'; awaiting := awaiting p |}
  end.

Definition step (p : Page) (e : event) : Page :=
  match e with
  | ToolResultPushed result =>
      {| dom := ontoolresult result (dom p); awaiting := awaiting p |}
  | AddClicked now => submit now p
  | KeyDown key now => if String.eqb key "Enter" then submit now p else p
  | CallSettled settled =>
      match awaiting p with
      | O => p
      | S n => {| dom := addTask_resume settled (dom p); awaiting := n |}
      end
  | TimeoutElapsed => {| dom := timeout_fires (dom p); awaiting := awaiting p |}
  end.

Definition run (es : list event) (p : Page) : Page := foldl step p es.

End Controller.

End UI.

(** * Part 4: properties *)

(** ** Notions the properties are stated with *)

(** The next [GetTasks] request is answered with a success status and the
    JSON array [data]. *)
Definition GetTasks_returns (w : World) (data : list value) : Prop :=
  ∃ res, remote w (sent w ++ [GetTasks_request w])%list = Fulfilled res
         ∧ ok res = true ∧ json res = Fulfilled (JArr data).

(** The property [k] of [t] is there and is not [null]. *)
Definition populated (t : value) (k : string) : Prop :=
  ∃ v, get t k = Some v ∧ v ≠ JNull.

(** What [fetchTasks] relies on in an element typed [Task]: it is an object,
    and its [Priority] and [Status] are numbers when they are there
    ([Priority?: number], [Status?: number]). *)
Definition optional_number (o : option value) : bool :=
  match o with
  | None | Some (JNum _) => true
  | Some _ => false
  end.

Definition wire_task (v : value) : bool :=
  match v with
  | JObj m => optional_number (m !! "Priority") && optional_number (m !! "Status")
  | _ => false
  end.

(** A tool result whose structured content has a [tasks] array and an
    [error] that is a string or [null]. *)
Definition well_formed_result (r : value) : Prop :=
  ∃ sc, get r "structuredContent" = Some sc
        ∧ (∃ ts, get sc "tasks" = Some (JArr ts))
        ∧ (get sc "error" = Some JNull ∨ ∃ msg, get sc "error" = Some (JStr msg)).

(** The structured content of the result [r], read property by property:
    it has the array [ts] under [tasks] and [err] under [error]. *)
Definition payload (r : value) (ts : list value) (err : value) : Prop :=
  ∃ sc, get r "structuredContent" = Some sc
        ∧ get sc "tasks" = Some (JArr ts)
        ∧ get sc "error" = Some err.

(** The content of the result [r] is one block of type [text] whose text
    is [s]. *)
Definition text_content (r : value) (s : string) : Prop :=
  ∃ b, get r "content" = Some (JArr [b])
       ∧ get b "type" = Some (JStr "text")
       ∧ get b "text" = Some (JStr s).

(** The result [r] reports the outcome [o] of the Task Client: the fetched
    tasks with a [null] error when it is a list, and no task with the message
    of what was thrown when it is a failure (the message of an [Error]
    instance, the string form of any other value). *)
Definition reports (r : value) (o : outcome (list value)) : Prop :=
  match o with
  | Fulfilled ts => payload r ts JNull
  | Rejected (ThrownError _ message) => payload r [] (JStr message)
  | Rejected (ThrownValue as_string) => payload r [] (JStr as_string)
  end.

(** An element that has [null] as its [Priority] on the wire. *)
Definition null_priority_wire : value :=
  JObj {[ "Id" := JNum 1; "Title" := JStr "Buy milk"; "Priority" := JNull ]}.

(** [sub] occurs in [s]. *)
Definition contains (s sub : string) : Prop :=
  ∃ pre post, s = pre ++ sub ++ post.

(** The part of the error message that is always there: the endpoint, the
    status code and the status text. *)
Definition status_line (endpoint : string) (res : Response) : string :=
  endpoint ++ " failed: " ++ pretty (status res) ++ " " ++ statusText res.

(** A call that failed on the response [res] of [endpoint]: it threw an
    [Error] whose message holds the status code and the status text, ends
    with the error body when there is one to read and it is not empty, and
    is the status line alone otherwise. *)
Definition fails_with_status {A} (endpoint : string) (res : Response)
    (o : outcome A) : Prop :=
  ∃ msg, o = Rejected (ThrownError Error msg)
    ∧ contains msg (pretty (status res))
    ∧ contains msg (statusText res)
    ∧ (∀ detail, text res = Fulfilled detail → detail ≠ "" →
         msg = status_line endpoint res ++ " - " ++ detail)
    ∧ (text res = Fulfilled "" ∨ (∃ e, text res = Rejected e) →
         msg = status_line endpoint res).

(** Some task of the list has the title [T]. *)
Definition has_title (T : string) (ts : list value) : Prop :=
  ∃ t, t ∈ ts ∧ get t "Title" = Some (JStr T).

(** ** Inputs to run the UI controller on *)

Definition listed_task : UI.Task :=
  {| UI.Id := 1; UI.Title := "Buy milk"; UI.Description := "";
     UI.Priority := 0; UI.DueDate := "2024-01-01T00:00:00Z"; UI.Status := 0 |}.

(** A page that shows one task and no status, with a blank title typed in. *)
Definition blank_title_page : UI.Dom :=
  {| UI.taskListEl_innerHTML := "<div>Buy milk</div>";
     UI.countEl_textContent := "1 件";
     UI.statusEl_textContent := "";
     UI.statusEl_display := "none";
     UI.titleInput_value := "   ";
     UI.descInput_value := "to do";
     UI.dateInput_value := "2024-03-03";
     UI.timeouts := [];
     UI.calls := [] |}.

(** A result that lists one task; the same with the empty string as
    [error]; and that one flagged [isError]. *)
Definition listing_result : UI.CallToolResult :=
  {| UI.isError := None;
     UI.structuredContent :=
       Some {| UI.tasks := Some [listed_task]; UI.error := None |} |}.

Definition empty_error_result : UI.CallToolResult :=
  {| UI.isError := None;
     UI.structuredContent :=
       Some {| UI.tasks := Some [listed_task]; UI.error := Some "" |} |}.

Definition flagged_empty_error_result : UI.CallToolResult :=
  {| UI.isError := Some true;
     UI.structuredContent :=
       Some {| UI.tasks := Some [listed_task]; UI.error := Some "" |} |}.

(** A result that carries an error message. *)
Definition error_result_db_down : UI.CallToolResult :=
  {| UI.isError := None;
     UI.structuredContent :=
       Some {| UI.tasks := Some []; UI.error := Some "db down" |} |}.

(** Stand-ins for the date conversions of the platform. *)
Definition date_part (iso : string) : string := String.substring 0 10 iso.
Definition midnight (s : string) : outcome string := Fulfilled (s ++ "T00:00:00.000Z").

(** ** Notions of the further properties *)

(** The two requests the client makes against the base URL [base]: a GET of
    [GetTasks] without headers or body, and a POST of [CreateTask] with a
    JSON content type whose body wraps under [Task] a task built by the
    handler of [add-task]. *)
Definition is_GetTasks (base : string) (req : Request) : Prop :=
  req = {| url := base ++ "/GetTasks"; method := "GET"; headers := []; body := None |}.

Definition is_CreateTask (base : string) (req : Request) : Prop :=
  ∃ Title Description DueDate,
    req = {| url := base ++ "/CreateTask"; method := "POST";
             headers := [("Content-Type", "application/json")];
             body := Some (JObj {[ "Task" :=
                      JObj (new_task Title Description DueDate) ]}) |}.

(** The number of [add-task] calls among some invocations, and of POST
    requests among some requests. *)
Definition is_AddTask (i : invocation) : bool :=
  match i with
  | AddTask _ _ _ => true
  | ListTasks => false
  end.

Definition is_POST (req : Request) : bool := String.eqb (method req) "POST".

Definition count {A} (f : A → bool) (l : list A) : nat := length (List.filter f l).

(** The list element and the count element show the same list of tasks. *)
Definition in_sync (toLocaleDateString : string → string) (d : UI.Dom) : Prop :=
  ∃ ts, UI.taskListEl_innerHTML d = UI.list_markup toLocaleDateString ts
        ∧ UI.countEl_textContent d = pretty (length ts) ++ " 件".

(** A call the controller may make: [add-task], with a title that is not
    empty and that trimming leaves as it is, and a trimmed description. *)
Definition proper_call (c : UI.ToolCall) : Prop :=
  UI.name c = "add-task"
  ∧ UI.arg_Title c ≠ ""
  ∧ UI.trim (UI.arg_Title c) = UI.arg_Title c
  ∧ UI.trim (UI.arg_Description c) = UI.arg_Description c.

(** The list element and the count element of [d'] are those of [d]. *)
Definition same_list (d d' : UI.Dom) : Prop :=
  UI.taskListEl_innerHTML d' = UI.taskListEl_innerHTML d
  ∧ UI.countEl_textContent d' = UI.countEl_textContent d.

(** A status that is displayed has a timeout pending that will hide it. *)
Definition will_hide (d : UI.Dom) : Prop :=
  UI.statusEl_display d = "block" → UI.timeouts d ≠ [].

(** The events that run [addTask]: a click on the add button and the Enter
    key in the title input. *)
Definition is_submit (e : UI.event) : bool :=
  match e with
  | UI.AddClicked _ => true
  | UI.KeyDown key _ => String.eqb key "Enter"
  | _ => false
  end.

(** A service that is unreachable. *)
Definition unreachable_service : list Request → outcome Response :=
  λ _, Rejected (ThrownError TypeError "fetch failed").

(** A page with a title, a description and no date typed in. *)
Definition filled_page : UI.Dom :=
  {| UI.taskListEl_innerHTML := "";
     UI.countEl_textContent := "";
     UI.statusEl_textContent := "";
     UI.statusEl_display := "none";
     UI.titleInput_value := "  Buy milk ";
     UI.descInput_value := " 2 litres";
     UI.dateInput_value := "";
     UI.timeouts := [];
     UI.calls := [] |}.

(** The page once loaded, with the empty list rendered and the form filled
    in, and a session on it: a submission, its answer, a timeout. *)
Definition loaded_page : UI.Page :=
  {| UI.dom := UI.renderTasks date_part [] filled_page; UI.awaiting := 0 |}.

Definition a_session : list UI.event :=
  [ UI.AddClicked "2024-03-04T05:06:07.000Z";
    UI.CallSettled (Fulfilled listing_result);
    UI.TimeoutElapsed ].

(** ** The client and the handlers, equation by equation *)

Lemma fetchTasks_eq w :
  fetchTasks w =
  (match remote w (sent w ++ [GetTasks_request w])%list with
   | Rejected e => Rejected e
   | Fulfilled res =>
       if ok res then
         match json res with
         | Fulfilled data => data_map fill_defaults data
         | Rejected e => Rejected e
         end
       else Rejected (ThrownError Error (failed_message "GetTasks" res))
   end, logged (GetTasks_request w) w).
Proof.
  unfold fetchTasks, bind, fetch, throw, await.
  destruct (remote w _) as [res|e]; [|done].
  destruct (ok res); simpl; [|done].
  by destruct (json res).
Qed.

Lemma createTask_eq task w :
  createTask task w =
  (match remote w (sent w ++ [CreateTask_request w task])%list with
   | Rejected e => Rejected e
   | Fulfilled res =>
       if ok res then json res
       else Rejected (ThrownError Error (failed_message "CreateTask" res))
   end, logged (CreateTask_request w task) w).
Proof.
  unfold createTask, bind, fetch, throw, await.
  destruct (remote w _) as [res|e]; [|done].
  by destruct (ok res).
Qed.

Lemma list_tasks_eq w :
  list_tasks w =
  match fetchTasks w with
  | (Fulfilled ts, w') =>
      (Fulfilled (tool_result
         (pretty (length ts) ++ " 件のタスクを UI に表示しました。") ts JNull), w')
  | (Rejected e, w') => (Fulfilled (failure e), w')
  end.
Proof.
  unfold list_tasks, try_catch, bind.
  by destruct (fetchTasks w) as [[ts|e] w'].
Qed.

Lemma add_task_eq Title Description DueDate w :
  add_task Title Description DueDate w =
  match createTask (new_task Title Description DueDate) w with
  | (Fulfilled _, w1) =>
      match fetchTasks w1 with
      | (Fulfilled ts, w2) =>
          (Fulfilled (tool_result
             ("タスク " ++ dquote ++ Title ++ dquote ++ " を追加しました。") ts JNull), w2)
      | (Rejected e, w2) => (Fulfilled (failure e), w2)
      end
  | (Rejected e, w1) => (Fulfilled (failure e), w1)
  end.
Proof.
  unfold add_task, try_catch, bind.
  destruct (createTask _ w) as [[created|e] w1]; [|done].
  by destruct (fetchTasks w1) as [[ts|e] w2].
Qed.

Lemma tool_result_structured s ts err :
  get (tool_result s ts err) "structuredContent" = Some (structured ts err).
Proof. done. Qed.

Lemma tool_result_content s ts err :
  get (tool_result s ts err) "content" = Some (JArr [text_block s]).
Proof. done. Qed.

Lemma structured_tasks ts err : get (structured ts err) "tasks" = Some (JArr ts).
Proof. done. Qed.

Lemma structured_error ts err : get (structured ts err) "error" = Some err.
Proof. done. Qed.

Lemma tool_result_well_formed s ts err :
  err = JNull ∨ (∃ msg, err = JStr msg) → well_formed_result (tool_result s ts err).
Proof.
  intros Herr. exists (structured ts err).
  split; [apply tool_result_structured|].
  split; [eexists; apply structured_tasks|].
  rewrite structured_error. destruct Herr as [->|[msg ->]]; eauto.
Qed.

Lemma failure_structured e :
  get (failure e) "structuredContent" = Some (structured [] (JStr (message_of e))).
Proof. unfold failure. apply tool_result_structured. Qed.

Lemma failure_well_formed e : well_formed_result (failure e).
Proof. unfold failure. apply tool_result_well_formed. right. eexists. reflexivity. Qed.

Lemma tool_result_payload s ts err : payload (tool_result s ts err) ts err.
Proof.
  exists (structured ts err). split; [apply tool_result_structured|].
  split; [apply structured_tasks | apply structured_error].
Qed.

Lemma text_block_type s : get (text_block s) "type" = Some (JStr "text").
Proof. reflexivity. Qed.

Lemma text_block_text s : get (text_block s) "text" = Some (JStr s).
Proof. reflexivity. Qed.

Lemma tool_result_text s ts err : text_content (tool_result s ts err) s.
Proof.
  exists (text_block s). split; [apply tool_result_content|].
  split; [apply text_block_type | apply text_block_text].
Qed.

Lemma failure_reports e : reports (failure e) (Rejected e).
Proof.
  destruct e; cbn [reports]; unfold failure; cbn [message_of];
    apply tool_result_payload.
Qed.

(** ** C1: the handlers always return a well-formed result *)

(** C1. Whatever the world, the handlers of [list-tasks] and [add-task]
    return (they never throw), and what they return has a structured content
    with a [tasks] array and an [error] that is a string or [null]. When a
    Task Client call fails, [tasks] is the empty array and [error] is the
    message of what was thrown; when the calls succeed [tasks] is the
    fetched list and [error] is [null]. *)
Theorem tool_handlers_never_throw w Title Description DueDate :
  (∃ r, fst (list_tasks w) = Fulfilled r ∧ well_formed_result r
        ∧ reports r (fst (fetchTasks w)))
  ∧ (∃ r, fst (add_task Title Description DueDate w) = Fulfilled r
     ∧ well_formed_result r ∧
     match createTask (new_task Title Description DueDate) w with
     | (Rejected e, _) => reports r (Rejected e)
     | (Fulfilled _, w1) => reports r (fst (fetchTasks w1))
     end).
Proof.
  split.
  - rewrite list_tasks_eq.
    destruct (fetchTasks w) as [[ts|e] w']; cbn [fst]; eexists;
      (split; [reflexivity|]).
    + split; [apply tool_result_well_formed; by left | apply tool_result_payload].
    + split; [apply failure_well_formed | apply failure_reports].
  - rewrite add_task_eq.
    destruct (createTask _ w) as [[created|e] w1].
    + destruct (fetchTasks w1) as [[ts|e] w2]; cbn [fst]; eexists;
        (split; [reflexivity|]).
      * split; [apply tool_result_well_formed; by left | apply tool_result_payload].
      * split; [apply failure_well_formed | apply failure_reports].
    + cbn [fst]. eexists. split; [reflexivity|].
      split; [apply failure_well_formed | apply failure_reports].
Qed.

(** ** C8: the text of a successful [list-tasks] *)

(** C8. When [fetchTasks] succeeds with [ts], the result of [list-tasks] has
    [ts] under [tasks], [null] under [error], and one text block whose text
    is the number of tasks in decimal followed by the count message of the
    source, " 件のタスクを UI に表示しました。" (tasks shown in the UI). *)
Theorem list_tasks_count_message w ts w' :
  fetchTasks w = (Fulfilled ts, w') →
  ∃ r sc b,
    list_tasks w = (Fulfilled r, w')
    ∧ get r "structuredContent" = Some sc
    ∧ get sc "tasks" = Some (JArr ts)
    ∧ get sc "error" = Some JNull
    ∧ get r "content" = Some (JArr [b])
    ∧ get b "type" = Some (JStr "text")
    ∧ get b "text"
      = Some (JStr (pretty (length ts) ++ " 件のタスクを UI に表示しました。")).
Proof.
  intros Hfetch. rewrite list_tasks_eq, Hfetch.
  eexists. exists (structured ts JNull). eexists.
  split; [reflexivity|].
  split; [apply tool_result_structured|].
  split; [apply structured_tasks|]. split; [apply structured_error|].
  split; [apply tool_result_content|].
  split; [apply text_block_type | apply text_block_text].
Qed.

(** ** C5: a refetch that fails after a create that succeeded *)

(** C5. When [createTask] succeeds and the [fetchTasks] that follows fails
    with [e], the handler of [add-task] returns a result whose [tasks] is
    the empty array, whose [error] is the message of [e] and whose text is
    that message after the error prefix, whatever the created task was. A
    create that fails with the same message gives the very same result. *)
Theorem add_task_refetch_failure Title Description DueDate w created w1 e w2 :
  createTask (new_task Title Description DueDate) w = (Fulfilled created, w1) →
  fetchTasks w1 = (Rejected e, w2) →
  ∃ r msg sc b,
    add_task Title Description DueDate w = (Fulfilled r, w2)
    ∧ match e with
      | ThrownError _ message => msg = message
      | ThrownValue as_string => msg = as_string
      end
    ∧ get r "structuredContent" = Some sc
    ∧ get sc "tasks" = Some (JArr [])
    ∧ get sc "error" = Some (JStr msg)
    ∧ get r "content" = Some (JArr [b])
    ∧ get b "type" = Some (JStr "text")
    ∧ get b "text" = Some (JStr ("エラー: " ++ msg))
    ∧ ∀ v e' va,
        createTask (new_task Title Description DueDate) v = (Rejected e', va) →
        message_of e' = message_of e →
        add_task Title Description DueDate v = (Fulfilled r, va).
Proof.
  intros Hcreate Hfetch.
  exists (failure e), (message_of e), (structured [] (JStr (message_of e))),
    (text_block ("エラー: " ++ message_of e)).
  rewrite add_task_eq, Hcreate, Hfetch.
  split; [reflexivity|]. split; [by destruct e|].
  split; [apply failure_structured|].
  split; [apply structured_tasks|]. split; [apply structured_error|].
  split; [unfold failure; apply tool_result_content|].
  split; [apply text_block_type|]. split; [apply text_block_text|].
  intros v e' va Hcreate' Hmsg.
  rewrite add_task_eq, Hcreate'. unfold failure. rewrite Hmsg. reflexivity.
Qed.

(** ** C3: the error of a response that is not a success *)

Lemma append_assoc (s1 s2 s3 : string) : (s1 ++ s2) ++ s3 = s1 ++ s2 ++ s3.
Proof.
  induction s1 as [|c s1 IH]; [reflexivity|].
  change (String c ((s1 ++ s2) ++ s3) = String c (s1 ++ s2 ++ s3)).
  by rewrite IH.
Qed.

Lemma append_empty_r (s : string) : s ++ "" = s.
Proof.
  induction s as [|c s IH]; [reflexivity|].
  change (String c (s ++ "") = String c s). by rewrite IH.
Qed.

Lemma truthy_string_nonempty s : truthy_string s = true ↔ s ≠ "".
Proof. destruct s; simpl; split; congruence. Qed.

Lemma failed_message_status_line endpoint res :
  failed_message endpoint res =
  status_line endpoint res
    ++ (if truthy_string (text_or_empty res) then " - " ++ text_or_empty res else "").
Proof.
  unfold failed_message, status_line. by rewrite !append_assoc.
Qed.

Lemma failed_message_fails {A} endpoint res :
  fails_with_status (A:=A) endpoint res
    (Rejected (ThrownError Error (failed_message endpoint res))).
Proof.
  exists (failed_message endpoint res). split; [reflexivity|].
  split; [|split; [|split]].
  - exists (endpoint ++ " failed: "). eexists.
    unfold failed_message. rewrite !append_assoc. reflexivity.
  - exists (endpoint ++ " failed: " ++ pretty (status res) ++ " "). eexists.
    unfold failed_message. rewrite !append_assoc. reflexivity.
  - intros detail Htext Hne. rewrite failed_message_status_line.
    unfold text_or_empty. rewrite Htext.
    apply truthy_string_nonempty in Hne. by rewrite Hne.
  - intros Hnone. rewrite failed_message_status_line.
    unfold text_or_empty. destruct Hnone as [->|[e ->]]; simpl;
      by rewrite append_empty_r.
Qed.

(** C3. A response whose status is outside 200-299 makes [fetchTasks] and
    [createTask] fail with an [Error] whose message contains the status code
    and the status text; the body text follows them after [" - "] when it
    could be read and is not empty, and a body that cannot be read leaves the
    status line as the message. *)
Theorem non_2xx_response_fails_with_status w task res :
  ok res = false →
  (remote w (sent w ++ [GetTasks_request w])%list = Fulfilled res →
     fails_with_status "GetTasks" res (fst (fetchTasks w)))
  ∧ (remote w (sent w ++ [CreateTask_request w task])%list = Fulfilled res →
     fails_with_status "CreateTask" res (fst (createTask task w))).
Proof.
  intros Hok. split; intros Hres.
  - rewrite fetchTasks_eq, Hres, Hok. apply failed_message_fails.
  - rewrite createTask_eq, Hres, Hok. apply failed_message_fails.
Qed.

(** ** C2 and C6: what [fetchTasks] does to the array it receives *)

Lemma fill_defaults_non_null t : t ≠ JNull → fill_defaults t = Fulfilled (with_defaults t).
Proof. by destruct t. Qed.

Lemma array_map_fill_defaults l :
  Forall (λ t, t ≠ JNull) l → array_map fill_defaults l = Fulfilled (with_defaults <$> l).
Proof.
  induction 1 as [|t l Ht _ IH]; [reflexivity|].
  cbn [array_map]. rewrite (fill_defaults_non_null t Ht), IH. reflexivity.
Qed.

Lemma array_map_fill_defaults_null l :
  JNull ∈ l → ∃ e, array_map fill_defaults l = Rejected e.
Proof.
  induction l as [|t l IH]; intros Hin.
  - by apply not_elem_of_nil in Hin.
  - cbn [array_map].
    destruct (fill_defaults t) as [t'|e] eqn:Ht; [|by eexists].
    apply elem_of_cons in Hin as [<-|Hin]; [discriminate|].
    destruct (IH Hin) as [e ->]. by eexists.
Qed.

(** With a [null] element in the array, [fetchTasks] throws. *)
Lemma fetchTasks_null_element w data :
  GetTasks_returns w data → JNull ∈ data → ∃ e, fst (fetchTasks w) = Rejected e.
Proof.
  intros (res & Hres & Hok & Hjson) Hin.
  rewrite fetchTasks_eq, Hres, Hok, Hjson. cbn [data_map fst].
  by apply array_map_fill_defaults_null.
Qed.

Lemma wire_task_non_null t : wire_task t = true → t ≠ JNull.
Proof. by destruct t. Qed.

Lemma get_with_defaults_Priority t :
  get (with_defaults t) "Priority" = Some (get t "Priority" ?? JNum 0).
Proof.
  unfold get, with_defaults. cbn [spread].
  rewrite lookup_insert_ne by discriminate. apply lookup_insert_eq.
Qed.

Lemma get_with_defaults_Status t :
  get (with_defaults t) "Status" = Some (get t "Status" ?? JNum 0).
Proof. unfold get, with_defaults. cbn [spread]. apply lookup_insert_eq. Qed.

Lemma get_with_defaults_other t k :
  k ≠ "Priority" → k ≠ "Status" → get (with_defaults t) k = get t k.
Proof.
  intros HP HS. unfold get, with_defaults. cbn [spread].
  rewrite !lookup_insert_ne by congruence. reflexivity.
Qed.

Lemma nullish_coalesce_number o n : o ?? JNum n ≠ JNull.
Proof. by destruct o as [[]|]. Qed.

Lemma nullish_coalesce_optional_number o d :
  optional_number o = true → o ?? d = default d o.
Proof. by destruct o as [[]|]. Qed.

Lemma fetchTasks_success w data :
  GetTasks_returns w data → Forall (λ t, t ≠ JNull) data →
  fetchTasks w = (Fulfilled (with_defaults <$> data), logged (GetTasks_request w) w).
Proof.
  intros (res & Hres & Hok & Hjson) Hdata.
  rewrite fetchTasks_eq, Hres, Hok, Hjson. cbn [data_map].
  by rewrite array_map_fill_defaults.
Qed.

(** C2. When [GetTasks] answers with a JSON array without a [null] element
    (any array of Task objects is one), [fetchTasks] returns a list in which
    every task has [Priority] and [Status] populated; a task whose
    [Priority] or [Status] was absent on the wire has 0 there; and this is
    the list that the handler of [list-tasks] passes on under [tasks]. *)
Theorem fetchTasks_fills_defaults w data :
  GetTasks_returns w data →
  Forall (λ t, t ≠ JNull) data →
  ∃ out, fst (fetchTasks w) = Fulfilled out
    ∧ Forall (λ t, populated t "Priority" ∧ populated t "Status") out
    ∧ (∀ i wire, data !! i = Some wire →
         ∃ t, out !! i = Some t
           ∧ (get wire "Priority" = None → get t "Priority" = Some (JNum 0))
           ∧ (get wire "Status" = None → get t "Status" = Some (JNum 0)))
    ∧ ∃ r, fst (list_tasks w) = Fulfilled r
           ∧ get r "structuredContent" = Some (structured out JNull)
           ∧ payload r out JNull.
Proof.
  intros Hret Hdata. exists (with_defaults <$> data).
  pose proof (fetchTasks_success w data Hret Hdata) as Hfetch.
  split; [by rewrite Hfetch|]. split; [|split].
  - apply Forall_fmap, Forall_forall. intros t _. split.
    + eexists. split; [apply get_with_defaults_Priority|apply nullish_coalesce_number].
    + eexists. split; [apply get_with_defaults_Status|apply nullish_coalesce_number].
  - intros i wire Hi. exists (with_defaults wire).
    split; [by rewrite list_lookup_fmap, Hi|].
    split; intros Habsent.
    + by rewrite get_with_defaults_Priority, Habsent.
    + by rewrite get_with_defaults_Status, Habsent.
  - eexists. rewrite list_tasks_eq, Hfetch.
    split; [reflexivity|].
    split; [apply tool_result_structured | apply tool_result_payload].
Qed.

(** On an array whose elements are typed as [Task] declares them,
    [Priority] and [Status] are as on the wire when they are there and 0
    when they are not. *)
Lemma fetchTasks_typed_elements w data :
  GetTasks_returns w data →
  Forall (λ t, wire_task t = true) data →
  ∃ out, fst (fetchTasks w) = Fulfilled out
    ∧ length out = length data
    ∧ ∀ i wire, data !! i = Some wire →
        ∃ t, out !! i = Some t
          ∧ (∀ k, k ≠ "Priority" → k ≠ "Status" → get t k = get wire k)
          ∧ (∀ k, k = "Priority" ∨ k = "Status" →
               get t k = Some (default (JNum 0) (get wire k))).
Proof.
  intros Hret Hdata. exists (with_defaults <$> data).
  assert (Forall (λ t, t ≠ JNull) data) as Hnn.
  { eapply Forall_impl; [exact Hdata|]. intros t. apply wire_task_non_null. }
  split; [by rewrite (fetchTasks_success w data Hret Hnn)|].
  split; [apply length_fmap|].
  intros i wire Hi. exists (with_defaults wire).
  split; [by rewrite list_lookup_fmap, Hi|].
  split; [intros k; apply get_with_defaults_other|].
  assert (wire_task wire = true) as Hwire.
  { rewrite Forall_lookup in Hdata. by eapply Hdata. }
  destruct wire as [| | | | |m]; try discriminate.
  apply andb_true_iff in Hwire as [HP HS].
  intros k [->| ->].
  - rewrite get_with_defaults_Priority. f_equal.
    by apply nullish_coalesce_optional_number.
  - rewrite get_with_defaults_Status. f_equal.
    by apply nullish_coalesce_optional_number.
Qed.

(** ** C4: what [add-task] sends and returns *)

Lemma createTask_world task w o w1 :
  createTask task w = (o, w1) → w1 = logged (CreateTask_request w task) w.
Proof. rewrite createTask_eq. by intros [= _ <-]. Qed.

Lemma fetchTasks_world w o w1 :
  fetchTasks w = (o, w1) → w1 = logged (GetTasks_request w) w.
Proof. rewrite fetchTasks_eq. by intros [= _ <-]. Qed.

Lemma array_map_fill_defaults_inv l ts :
  array_map fill_defaults l = Fulfilled ts → ts = with_defaults <$> l.
Proof.
  revert ts. induction l as [|t l IH]; intros ts; cbn [array_map].
  - by intros [= <-].
  - destruct (fill_defaults t) as [t'|e] eqn:Ht; [|discriminate].
    destruct (array_map fill_defaults l) as [ts'|e]; [|discriminate].
    intros [= <-]. rewrite (IH ts' eq_refl).
    destruct t; try (injection Ht as <-; reflexivity). discriminate.
Qed.

Lemma fetchTasks_returns_with_defaults w data ts w' :
  GetTasks_returns w data → fetchTasks w = (Fulfilled ts, w') →
  ts = with_defaults <$> data.
Proof.
  intros (res & Hres & Hok & Hjson). rewrite fetchTasks_eq, Hres, Hok, Hjson.
  cbn [data_map]. intros [= Hmap _]. by apply array_map_fill_defaults_inv.
Qed.

Lemma has_title_with_defaults T data :
  has_title T (with_defaults <$> data) ↔ has_title T data.
Proof.
  unfold has_title. split.
  - intros (t & Hin & Ht). apply list_elem_of_fmap in Hin as (t0 & -> & Hin).
    exists t0. split; [done|].
    by rewrite get_with_defaults_other in Ht.
  - intros (t & Hin & Ht). exists (with_defaults t).
    split; [by apply list_elem_of_fmap_2|].
    by rewrite get_with_defaults_other.
Qed.

(** C6, as the code has it. For every call of [fetchTasks] that succeeds on
    a JSON array, the list returned has the length of the array and its
    i-th task comes from the i-th element: every property other than
    [Priority] and [Status] is as on the wire; [Priority] and [Status] are 0
    when they are absent or [null] on the wire, and as on the wire
    otherwise. *)
Theorem fetchTasks_preserves_order_and_fields w data out w' :
  GetTasks_returns w data →
  fetchTasks w = (Fulfilled out, w') →
  length out = length data
  ∧ ∀ i wire, data !! i = Some wire →
      ∃ t, out !! i = Some t
        ∧ (∀ k, k ≠ "Priority" → k ≠ "Status" → get t k = get wire k)
        ∧ (∀ k, k = "Priority" ∨ k = "Status" →
             (get wire k = None ∨ get wire k = Some JNull →
              get t k = Some (JNum 0))
             ∧ (∀ v, get wire k = Some v → v ≠ JNull → get t k = Some v)).
Proof.
  intros Hret Hfetch.
  pose proof (fetchTasks_returns_with_defaults _ _ _ _ Hret Hfetch) as ->.
  split; [apply length_fmap|].
  intros i wire Hi. exists (with_defaults wire).
  split; [by rewrite list_lookup_fmap, Hi|].
  split; [intros k; apply get_with_defaults_other|].
  assert (∀ o : option value,
            (o = None ∨ o = Some JNull → o ?? JNum 0 = JNum 0)
            ∧ (∀ v, o = Some v → v ≠ JNull → o ?? JNum 0 = v)) as Hcoalesce.
  { intros o. split.
    - by intros [->| ->].
    - intros v -> Hv. by destruct v. }
  intros k [->| ->].
  - rewrite get_with_defaults_Priority.
    destruct (Hcoalesce (get wire "Priority")) as [Habsent Hpresent]. split.
    + intros Hk. by rewrite (Habsent Hk).
    + intros v Hk Hv. by rewrite (Hpresent v Hk Hv).
  - rewrite get_with_defaults_Status.
    destruct (Hcoalesce (get wire "Status")) as [Habsent Hpresent]. split.
    + intros Hk. by rewrite (Habsent Hk).
    + intros v Hk Hv. by rewrite (Hpresent v Hk Hv).
Qed.

Lemma failure_error_not_null e sc :
  get (failure e) "structuredContent" = Some sc → get sc "error" ≠ Some JNull.
Proof.
  rewrite failure_structured. intros [= <-]. by rewrite structured_error.
Qed.

(** C4, as the code has it. The handler of [add-task] builds a task from its
    three inputs with [Priority] 1 and [Status] 0 and first sends it, wrapped
    under the key [Task], in a POST to [CreateTask]. When that create and the
    [fetchTasks] that follows both succeed, two requests were sent, the POST
    and then a GET to [GetTasks]; the structured content is
    [{tasks, error: null}] with exactly the list [fetchTasks] returned; and
    that list has a task with the submitted title exactly when the array that
    [GetTasks] answered has one. The handler returns a [null] error in that
    case only. *)
Theorem add_task_creates_then_refetches Title Description DueDate w :
  let task := new_task Title Description DueDate in
  let post := CreateTask_request w task in
  (task !! "Title" = Some (JStr Title)
   ∧ task !! "Description" = Some (JStr Description)
   ∧ task !! "DueDate" = Some (JStr DueDate)
   ∧ task !! "Priority" = Some (JNum 1)
   ∧ task !! "Status" = Some (JNum 0)
   ∧ task !! "Id" = None)
  ∧ (method post = "POST" ∧ body post = Some (JObj {[ "Task" := JObj task ]}))
  ∧ (∃ rest, sent (snd (add_task Title Description DueDate w))
             = (sent w ++ post :: rest)%list)
  ∧ (∀ created w1 ts w2,
      createTask task w = (Fulfilled created, w1) →
      fetchTasks w1 = (Fulfilled ts, w2) →
      ∃ r, add_task Title Description DueDate w = (Fulfilled r, w2)
        ∧ get r "structuredContent" = Some (structured ts JNull)
        ∧ payload r ts JNull
        ∧ sent w2 = (sent w ++ [post; GetTasks_request w])%list
        ∧ ∀ data, GetTasks_returns w1 data →
            ts = with_defaults <$> data
            ∧ (has_title Title ts ↔ has_title Title data))
  ∧ ∀ r w2 sc,
      add_task Title Description DueDate w = (Fulfilled r, w2) →
      get r "structuredContent" = Some sc →
      get sc "error" = Some JNull →
      ∃ created w1 ts,
        createTask task w = (Fulfilled created, w1)
        ∧ fetchTasks w1 = (Fulfilled ts, w2).
Proof.
  intros task post. split; [by repeat split|]. split; [by split|].
  split; [|split].
  - rewrite add_task_eq. fold task.
    destruct (createTask task w) as [[created|e] w1] eqn:Hcreate;
      apply createTask_world in Hcreate as ->.
    + destruct (fetchTasks _) as [[ts|e] w2] eqn:Hfetch;
        apply fetchTasks_world in Hfetch as ->;
        exists [GetTasks_request w]; cbn [snd logged sent];
        by rewrite <- app_assoc.
    + by exists [].
  - intros created w1 ts w2 Hcreate Hfetch. eexists.
    rewrite add_task_eq. fold task. rewrite Hcreate, Hfetch.
    split; [reflexivity|]. split; [apply tool_result_structured|].
    split; [apply tool_result_payload|].
    pose proof (createTask_world _ _ _ _ Hcreate) as ->.
    pose proof (fetchTasks_world _ _ _ Hfetch) as ->.
    split; [cbn [logged sent]; by rewrite <- app_assoc|].
    intros data Hdata.
    pose proof (fetchTasks_returns_with_defaults _ _ _ _ Hdata Hfetch) as ->.
    split; [reflexivity | apply has_title_with_defaults].
  - intros r w2 sc. rewrite add_task_eq. fold task.
    destruct (createTask task w) as [[created|e] w1] eqn:Hcreate.
    + destruct (fetchTasks w1) as [[ts|e] w2'] eqn:Hfetch.
      * intros [= _ <-] _ _. by exists created, w1, ts.
      * intros [= <- _] Hsc Herr. by apply failure_error_not_null in Hsc.
    + intros [= <- _] Hsc Herr. by apply failure_error_not_null in Hsc.
Qed.

(** ** C7, C9, C10: the UI controller *)

Section UIProperties.

Variable toLocaleDateString : string → string.
Variable toISOString : string → outcome string.

Lemma handleToolResult_flagged result d :
  UI.isError result = Some true →
  UI.handleToolResult toLocaleDateString result d
  = UI.showStatus "エラーが発生しました" d.
Proof. unfold UI.handleToolResult. by intros ->. Qed.

Lemma handleToolResult_error result data msg d :
  UI.isError result ≠ Some true →
  UI.structuredContent result = Some data →
  UI.error data = Some msg → msg ≠ "" →
  UI.handleToolResult toLocaleDateString result d
  = UI.showStatus ("エラー: " ++ msg) d.
Proof.
  intros Hflag Hdata Herr Hmsg. unfold UI.handleToolResult.
  destruct (UI.isError result) as [[]|]; [done|..];
    rewrite Hdata; cbn; rewrite Herr; cbn;
    apply truthy_string_nonempty in Hmsg; by rewrite Hmsg.
Qed.

Lemma handleToolResult_no_error result d :
  UI.isError result ≠ Some true →
  (∀ data, UI.structuredContent result = Some data →
     UI.error data = None ∨ UI.error data = Some "") →
  UI.handleToolResult toLocaleDateString result d
  = match UI.structuredContent result ≫= UI.tasks with
    | Some ts =>
        UI.set_status (UI.statusEl_textContent d) "none" (UI.timeouts d)
          (UI.renderTasks toLocaleDateString ts d)
    | None => d
    end.
Proof.
  intros Hflag Hnone. unfold UI.handleToolResult.
  assert (UI.truthy_flag (UI.isError result) = false) as ->.
  { by destruct (UI.isError result) as [[]|]. }
  assert (UI.truthy_error (UI.structuredContent result ≫= UI.error) = false) as ->.
  { destruct (UI.structuredContent result) as [data|]; [|done].
    by destruct (Hnone data eq_refl) as [Herr|Herr]; cbn; rewrite Herr. }
  by destruct (UI.structuredContent result ≫= UI.tasks).
Qed.

(** C7, as the code has it. A tool result carries an error marker when
    [isError] is set or the [error] of its structured content is a string
    that is not empty. With a marker, [handleToolResult] shows a status
    message (the element is displayed and a timeout is set to hide it) and
    leaves the list and the count as they were. Without one, and with
    [tasks] in the structured content, the list and the count are those
    of [tasks], whatever was rendered before, and the status element is
    hidden; with neither, nothing changes. *)
Theorem handleToolResult_error_or_render result d :
  let d' := UI.handleToolResult toLocaleDateString result d in
  let marker :=
    UI.isError result = Some true
    ∨ ∃ data msg, UI.structuredContent result = Some data
                  ∧ UI.error data = Some msg ∧ msg ≠ "" in
  (marker →
     (∃ message, UI.statusEl_textContent d' = message
                 ∧ d' = UI.showStatus message d)
     ∧ UI.statusEl_display d' = "block"
     ∧ UI.timeouts d' = (UI.timeouts d ++ [2000%N])%list
     ∧ UI.taskListEl_innerHTML d' = UI.taskListEl_innerHTML d
     ∧ UI.countEl_textContent d' = UI.countEl_textContent d)
  ∧ (¬ marker →
     (∀ data ts, UI.structuredContent result = Some data →
        UI.tasks data = Some ts →
        UI.taskListEl_innerHTML d' = UI.list_markup toLocaleDateString ts
        ∧ UI.countEl_textContent d' = pretty (length ts) ++ " 件"
        ∧ UI.statusEl_display d' = "none"
        ∧ UI.statusEl_textContent d' = UI.statusEl_textContent d
        ∧ UI.timeouts d' = UI.timeouts d)
     ∧ (UI.structuredContent result ≫= UI.tasks = None → d' = d)).
Proof.
  intros d' marker. subst d'. split.
  - assert (∀ message,
      UI.handleToolResult toLocaleDateString result d = UI.showStatus message d →
      (∃ message, UI.statusEl_textContent
                    (UI.handleToolResult toLocaleDateString result d) = message
          ∧ UI.handleToolResult toLocaleDateString result d = UI.showStatus message d)
      ∧ UI.statusEl_display (UI.handleToolResult toLocaleDateString result d) = "block"
      ∧ UI.timeouts (UI.handleToolResult toLocaleDateString result d)
        = (UI.timeouts d ++ [2000%N])%list
      ∧ UI.taskListEl_innerHTML (UI.handleToolResult toLocaleDateString result d)
        = UI.taskListEl_innerHTML d
      ∧ UI.countEl_textContent (UI.handleToolResult toLocaleDateString result d)
        = UI.countEl_textContent d) as Hshown.
    { intros message ->. split; [by exists message|]. by repeat split. }
    intros [Hflag|(data & msg & Hdata & Herr & Hmsg)].
    + eapply Hshown, handleToolResult_flagged, Hflag.
    + destruct (decide (UI.isError result = Some true)) as [Hflag|Hflag].
      * eapply Hshown, handleToolResult_flagged, Hflag.
      * eapply Hshown, handleToolResult_error; eauto.
  - intros Hno.
    assert (UI.isError result ≠ Some true) as Hflag.
    { intros Hflag. apply Hno. by left. }
    assert (∀ data, UI.structuredContent result = Some data →
              UI.error data = None ∨ UI.error data = Some "") as Hnone.
    { intros data Hdata. destruct (UI.error data) as [msg|] eqn:Herr; [|by left].
      destruct msg as [|c msg]; [by right|].
      exfalso. apply Hno. right. exists data, (String c msg). by repeat split. }
    rewrite (handleToolResult_no_error result d Hflag Hnone). split.
    + intros data ts Hdata Hts. rewrite Hdata. cbn. rewrite Hts. by repeat split.
    + by intros ->.
Qed.

(** C10, as the code has it. For a tool result that is not flagged
    [isError] and whose structured content has the empty string as [error],
    [handleToolResult] shows no status (the status text and the timeouts are
    as before); with [tasks] in the structured content the list and the count
    are those of [tasks] and the status element is hidden, and without
    [tasks] nothing changes. *)
Theorem handleToolResult_empty_error result data d :
  UI.isError result ≠ Some true →
  UI.structuredContent result = Some data →
  UI.error data = Some "" →
  let d' := UI.handleToolResult toLocaleDateString result d in
  UI.statusEl_textContent d' = UI.statusEl_textContent d
  ∧ UI.timeouts d' = UI.timeouts d
  ∧ (∀ ts, UI.tasks data = Some ts →
       UI.taskListEl_innerHTML d' = UI.list_markup toLocaleDateString ts
       ∧ UI.countEl_textContent d' = pretty (length ts) ++ " 件"
       ∧ UI.statusEl_display d' = "none")
  ∧ (UI.tasks data = None → d' = d).
Proof.
  intros Hflag Hdata Herr d'. subst d'.
  rewrite handleToolResult_no_error; [|done|].
  - rewrite Hdata. cbn. destruct (UI.tasks data) as [ts|].
    + split; [reflexivity|]. split; [reflexivity|]. split; [|discriminate].
      intros ts' [= <-]. by repeat split.
    + split; [reflexivity|]. split; [reflexivity|]. by split.
  - intros data' Hdata'. rewrite Hdata in Hdata'. injection Hdata' as <-. by right.
Qed.

(** C9. When the title input is empty after trimming, [addTask] returns at
    once and leaves everything as it was: no tool call is made, the inputs
    keep their values, no status is shown, no timeout is set and the list is
    untouched. *)
Theorem addTask_blank_title_is_noop now settled d :
  UI.trim (UI.titleInput_value d) = "" →
  UI.addTask_start toISOString now d = (Fulfilled None, d)
  ∧ UI.addTask toLocaleDateString toISOString now settled d = d.
Proof.
  intros Hblank. unfold UI.addTask, UI.addTask_start. by rewrite Hblank.
Qed.

End UIProperties.

(** ** The properties on concrete runs *)

(** Runs a client call on a concrete world: the outcome is computed, the
    world is the old one with the request logged. *)
Ltac run_client :=
  first [rewrite createTask_eq | rewrite fetchTasks_eq];
  apply (f_equal2 pair); [vm_compute; reflexivity | reflexivity].

(** The scenario of the specification: a listed task without [Priority] and
    [Status] comes out of [list-tasks] with both set to 0. *)
Example list_tasks_buy_milk :
  fst (list_tasks (world (constant_service (ok_json (JArr [buy_milk_wire])))))
  = Fulfilled (tool_result "1 件のタスクを UI に表示しました。" [buy_milk] JNull).
Proof. vm_compute. reflexivity. Qed.

(** A [Priority] that is [null] on the wire is replaced by 0 as well: [??]
    treats [null] like an absent property. *)
Example null_Priority_becomes_0 :
  get (with_defaults (JObj {[ "Id" := JNum 1; "Priority" := JNull ]})) "Priority"
  = Some (JNum 0).
Proof. vm_compute. reflexivity. Qed.

(** A [null] element makes [fetchTasks] throw, and [list-tasks] reports it. *)
Example list_tasks_null_element :
  fst (list_tasks (world (constant_service (ok_json (JArr [JNull])))))
  = Fulfilled (failure (ThrownError TypeError
      "Cannot read properties of null (reading 'Priority')")).
Proof. vm_compute. reflexivity. Qed.

(** The service of the scenario answers [GetTasks] with the one task. *)
Lemma buy_milk_returned :
  GetTasks_returns (world (constant_service (ok_json (JArr [buy_milk_wire]))))
    [buy_milk_wire].
Proof. eexists. split; [reflexivity|]. split; reflexivity. Defined.

(** [fetchTasks_fills_defaults] on the scenario: the task listed without
    [Priority] and [Status] comes back with both. *)
Lemma fetchTasks_fills_defaults_witness :
  let w := world (constant_service (ok_json (JArr [buy_milk_wire]))) in
  ∃ out, fst (fetchTasks w) = Fulfilled out
         ∧ Forall (λ t, populated t "Priority" ∧ populated t "Status") out.
Proof.
  intros w.
  assert (Forall (λ t, t ≠ JNull) [buy_milk_wire]) as Hdata.
  { repeat constructor. unfold buy_milk_wire. discriminate. }
  destruct (fetchTasks_fills_defaults w [buy_milk_wire] buy_milk_returned Hdata)
    as (out & Hfetch & Hpop & _).
  exists out. split; assumption.
Defined.

(** [fetchTasks_preserves_order_and_fields] on the scenario: one element
    on the wire, one task returned, with its title kept and its absent
    [Priority] set to 0. *)
Lemma fetchTasks_preserves_order_and_fields_witness :
  let w := world (constant_service (ok_json (JArr [buy_milk_wire]))) in
  fetchTasks w = (Fulfilled [buy_milk], logged (GetTasks_request w) w)
  ∧ length [buy_milk] = length [buy_milk_wire]
  ∧ ∃ t, [buy_milk] !! 0 = Some t
         ∧ get t "Title" = get buy_milk_wire "Title"
         ∧ get t "Priority" = Some (JNum 0).
Proof.
  intros w.
  assert (fetchTasks w = (Fulfilled [buy_milk], logged (GetTasks_request w) w))
    as Hfetch.
  { run_client. }
  split; [exact Hfetch|].
  destruct (fetchTasks_preserves_order_and_fields w [buy_milk_wire] [buy_milk]
              (logged (GetTasks_request w) w) buy_milk_returned Hfetch)
    as (Hlen & Helem).
  split; [exact Hlen|].
  destruct (Helem 0 buy_milk_wire eq_refl) as (t & Ht & Hother & Hdefault).
  exists t. split; [exact Ht|]. split.
  - apply Hother; discriminate.
  - destruct (Hdefault "Priority") as [Habsent _]; [by left|].
    apply Habsent. left. reflexivity.
Defined.

(** C6, the claim as written fails: a [Priority] that is [null] on the wire
    is present there, yet the task that [fetchTasks] returns has 0 in its
    place. *)
Lemma null_Priority_is_present_and_changed :
  let w := world (constant_service (ok_json (JArr [null_priority_wire]))) in
  ∃ out t, fst (fetchTasks w) = Fulfilled out
    ∧ out !! 0 = Some t
    ∧ get null_priority_wire "Priority" = Some JNull
    ∧ get t "Priority" = Some (JNum 0)
    ∧ get t "Priority" ≠ get null_priority_wire "Priority".
Proof.
  intros w.
  exists [with_defaults null_priority_wire], (with_defaults null_priority_wire).
  split; [vm_compute; reflexivity|]. split; [reflexivity|].
  split; [reflexivity|]. split; [vm_compute; reflexivity|].
  vm_compute. discriminate.
Qed.

(** [non_2xx_response_fails_with_status] on a service that answers 500
    with the body [db down]. *)
Lemma non_2xx_response_fails_with_status_witness :
  let w := world (constant_service db_down) in
  ok db_down = false
  ∧ fails_with_status "GetTasks" db_down (fst (fetchTasks w))
  ∧ fails_with_status "CreateTask" db_down (fst (createTask test_task w)).
Proof.
  intros w. split; [reflexivity|].
  destruct (non_2xx_response_fails_with_status w test_task db_down eq_refl)
    as [Hget Hcreate].
  split; [apply Hget | apply Hcreate]; reflexivity.
Defined.

(** [list_tasks_count_message] on the scenario: one task, and the text
    says 1. *)
Lemma list_tasks_count_message_witness :
  let w := world (constant_service (ok_json (JArr [buy_milk_wire]))) in
  ∃ r b, fst (list_tasks w) = Fulfilled r
         ∧ get r "content" = Some (JArr [b])
         ∧ get b "text" = Some (JStr "1 件のタスクを UI に表示しました。").
Proof.
  intros w.
  destruct (list_tasks_count_message w [buy_milk] (logged (GetTasks_request w) w))
    as (r & sc & b & Hlist & _ & _ & _ & Hcontent & _ & Htext).
  { run_client. }
  exists r, b. split; [by rewrite Hlist|]. split; [exact Hcontent | exact Htext].
Defined.

(** [add_task_refetch_failure] on a service that accepts the create and
    answers 500 to the refetch. *)
Lemma add_task_refetch_failure_witness :
  let w := world failing_service in
  ∃ r sc, fst (add_task "Test" "" "2024-02-02T00:00:00Z" w) = Fulfilled r
          ∧ get r "structuredContent" = Some sc
          ∧ get sc "tasks" = Some (JArr [])
          ∧ get sc "error"
            = Some (JStr "GetTasks failed: 500 Internal Server Error - db down").
Proof.
  intros w.
  pose (w1 := logged (CreateTask_request w test_task) w).
  destruct (add_task_refetch_failure "Test" "" "2024-02-02T00:00:00Z" w
              (test_created 7) w1
              (ThrownError Error "GetTasks failed: 500 Internal Server Error - db down")
              (logged (GetTasks_request w1) w1))
    as (r & msg & sc & b & Hadd & Hmsg & Hsc & Htasks & Herr & _).
  { run_client. }
  { run_client. }
  exists r, sc. split; [by rewrite Hadd|]. split; [exact Hsc|].
  split; [exact Htasks|]. by rewrite <- Hmsg.
Defined.

(** [add_task_creates_then_refetches] on a service that keeps what it is
    asked to create: the refetched list has the submitted title. *)
Lemma add_task_creates_then_refetches_witness :
  let w := world memory_service in
  ∃ r ts, fst (add_task "Test" "" "2024-02-02T00:00:00Z" w) = Fulfilled r
          ∧ get r "structuredContent" = Some (structured ts JNull)
          ∧ has_title "Test" ts.
Proof.
  intros w.
  pose (w1 := logged (CreateTask_request w test_task) w).
  pose (listed := JObj (delete "Status" (<["Id" := JNum 1]> test_task))).
  destruct (add_task_creates_then_refetches "Test" "" "2024-02-02T00:00:00Z" w)
    as (_ & _ & _ & Hsuccess & _).
  destruct (Hsuccess listed w1 [test_created 1]
              (logged (GetTasks_request w1) w1))
    as (r & Hadd & Hsc & _ & _ & Hdata).
  { run_client. }
  { run_client. }
  exists r, [test_created 1]. split; [by rewrite Hadd|]. split; [exact Hsc|].
  destruct (Hdata [listed]) as [_ Htitle].
  { exists (ok_json (JArr [listed])).
    split; [vm_compute; reflexivity|]. split; reflexivity. }
  apply Htitle. exists listed. split; [apply list_elem_of_here | reflexivity].
Defined.

(** C4, the claim as written fails: a service may accept the create and
    list nothing; [add-task] then succeeds with an empty list, in which no
    task has the submitted title. *)
Lemma add_task_refetch_may_miss_the_title :
  ∃ r ts, fst (add_task "Test" "" "2024-02-02T00:00:00Z" (world forgetful_service))
          = Fulfilled r
          ∧ get r "structuredContent" = Some (structured ts JNull)
          ∧ payload r ts JNull
          ∧ ¬ has_title "Test" ts.
Proof.
  exists (tool_result ("タスク " ++ dquote ++ "Test" ++ dquote ++ " を追加しました。")
            [] JNull), [].
  split; [vm_compute; reflexivity|].
  split; [apply tool_result_structured|].
  split; [apply tool_result_payload|].
  intros (t & Hin & _). by apply not_elem_of_nil in Hin.
Qed.

(** [handleToolResult_error_or_render] on a result that carries an error
    message and on a result that lists one task. *)
Lemma handleToolResult_error_or_render_witness :
  let shown := UI.handleToolResult date_part error_result_db_down blank_title_page in
  let listed := UI.handleToolResult date_part listing_result blank_title_page in
  (UI.statusEl_display shown = "block"
   ∧ UI.taskListEl_innerHTML shown = UI.taskListEl_innerHTML blank_title_page)
  ∧ (UI.taskListEl_innerHTML listed = UI.list_markup date_part [listed_task]
     ∧ UI.statusEl_display listed = "none").
Proof.
  intros shown listed. split.
  - destruct (handleToolResult_error_or_render date_part error_result_db_down
                blank_title_page) as [Hmarker _].
    destruct Hmarker as (_ & Hdisplay & _ & Hlist & _).
    { right. eexists. exists "db down".
      split; [reflexivity|]. split; [reflexivity | discriminate]. }
    split; [exact Hdisplay | exact Hlist].
  - destruct (handleToolResult_error_or_render date_part listing_result
                blank_title_page) as [_ Hrender].
    destruct Hrender as [Hrender _].
    { intros [Hflag | (data & msg & Hdata & Herr & _)]; [discriminate|].
      injection Hdata as <-. discriminate. }
    destruct (Hrender _ [listed_task] eq_refl eq_refl) as (Hlist & _ & Hdisplay & _).
    split; [exact Hlist | exact Hdisplay].
Defined.

(** C7, the claim as written fails: an [error] that is the empty string is
    not [null], yet the list is replaced and no status is shown. *)
Lemma empty_error_is_not_an_error_marker :
  let d' := UI.handleToolResult date_part empty_error_result blank_title_page in
  (∃ data, UI.structuredContent empty_error_result = Some data
           ∧ UI.error data ≠ None)
  ∧ UI.taskListEl_innerHTML d' = UI.list_markup date_part [listed_task]
  ∧ UI.taskListEl_innerHTML d' ≠ UI.taskListEl_innerHTML blank_title_page
  ∧ UI.statusEl_display d' = "none"
  ∧ UI.statusEl_textContent d' = ""
  ∧ UI.timeouts d' = [].
Proof.
  intros d'. split; [eexists; split; [reflexivity | discriminate]|].
  split; [reflexivity|]. split; [vm_compute; discriminate|]. by repeat split.
Qed.

(** [handleToolResult_empty_error] on a result that is not flagged, has the
    empty string as [error] and lists one task. *)
Lemma handleToolResult_empty_error_witness :
  let d' := UI.handleToolResult date_part empty_error_result blank_title_page in
  UI.statusEl_textContent d' = UI.statusEl_textContent blank_title_page
  ∧ UI.taskListEl_innerHTML d' = UI.list_markup date_part [listed_task]
  ∧ UI.statusEl_display d' = "none".
Proof.
  intros d'.
  destruct (handleToolResult_empty_error date_part empty_error_result
              {| UI.tasks := Some [listed_task]; UI.error := Some "" |}
              blank_title_page) as (Htext & _ & Hrender & _).
  { discriminate. } { reflexivity. } { reflexivity. }
  destruct (Hrender [listed_task] eq_refl) as (Hlist & _ & Hdisplay).
  split; [exact Htext|]. split; [exact Hlist | exact Hdisplay].
Defined.

(** C10, the claim as written fails: when the result is flagged [isError],
    an empty [error] does not make it a success; the error status is shown
    and the tasks of the result are not rendered. *)
Lemma flagged_empty_error_is_an_error :
  let d' := UI.handleToolResult date_part flagged_empty_error_result blank_title_page in
  (∃ data, UI.structuredContent flagged_empty_error_result = Some data
           ∧ UI.error data = Some "" ∧ UI.tasks data = Some [listed_task])
  ∧ UI.statusEl_textContent d' = "エラーが発生しました"
  ∧ UI.statusEl_display d' = "block"
  ∧ UI.taskListEl_innerHTML d' = UI.taskListEl_innerHTML blank_title_page
  ∧ UI.taskListEl_innerHTML d' ≠ UI.list_markup date_part [listed_task].
Proof.
  intros d'. split; [eexists; by repeat split|].
  split; [reflexivity|]. split; [reflexivity|]. split; [reflexivity|].
  vm_compute. discriminate.
Qed.

(** [addTask_blank_title_is_noop] on a page whose title input holds three
    spaces. *)
Lemma addTask_blank_title_is_noop_witness :
  UI.trim (UI.titleInput_value blank_title_page) = ""
  ∧ UI.addTask date_part midnight "2024-03-04T05:06:07.000Z"
      (Fulfilled listing_result) blank_title_page = blank_title_page.
Proof.
  split; [reflexivity|].
  apply (addTask_blank_title_is_noop date_part midnight
           "2024-03-04T05:06:07.000Z" (Fulfilled listing_result) blank_title_page).
  reflexivity.
Defined.

(** * Part 5: further properties *)

(** ** The requests the server sends *)

Lemma TASK_API_BASE_env w w' :
  env_TASK_API_BASE w' = env_TASK_API_BASE w → TASK_API_BASE w' = TASK_API_BASE w.
Proof. unfold TASK_API_BASE. by intros ->. Qed.

Lemma GetTasks_request_shape w : is_GetTasks (TASK_API_BASE w) (GetTasks_request w).
Proof. reflexivity. Qed.

Lemma CreateTask_request_shape w Title Description DueDate :
  is_CreateTask (TASK_API_BASE w)
    (CreateTask_request w (new_task Title Description DueDate)).
Proof. exists Title, Description, DueDate. reflexivity. Qed.

Lemma list_tasks_world w : snd (list_tasks w) = logged (GetTasks_request w) w.
Proof.
  rewrite list_tasks_eq.
  destruct (fetchTasks w) as [o w'] eqn:Hfetch.
  apply fetchTasks_world in Hfetch as ->. by destruct o.
Qed.

Lemma add_task_world Title Description DueDate w :
  let post := CreateTask_request w (new_task Title Description DueDate) in
  snd (add_task Title Description DueDate w) =
  match fst (createTask (new_task Title Description DueDate) w) with
  | Fulfilled _ => logged (GetTasks_request w) (logged post w)
  | Rejected _ => logged post w
  end.
Proof.
  intros post. rewrite add_task_eq.
  destruct (createTask _ w) as [o w1] eqn:Hcreate.
  apply createTask_world in Hcreate as ->. fold post.
  destruct o as [created|e]; [|reflexivity].
  destruct (fetchTasks (logged post w)) as [o w2] eqn:Hfetch.
  apply fetchTasks_world in Hfetch as ->. by destruct o.
Qed.

Lemma count_app {A} (f : A → bool) (l1 l2 : list A) :
  count f (l1 ++ l2) = count f l1 + count f l2.
Proof. unfold count. by rewrite List.filter_app, length_app. Qed.

(** What one invocation does to the world: the environment and the service
    are as before and the log has grown by the requests of the handler. *)
Lemma invoke_world i w :
  ∃ new,
    env_TASK_API_BASE (snd (invoke i w)) = env_TASK_API_BASE w
    ∧ remote (snd (invoke i w)) = remote w
    ∧ sent (snd (invoke i w)) = (sent w ++ new)%list
    ∧ Forall (λ req, is_GetTasks (TASK_API_BASE w) req
                     ∨ is_CreateTask (TASK_API_BASE w) req) new
    ∧ count is_POST new = count is_AddTask [i]
    ∧ (length new ≤ 1 + count is_AddTask [i])%nat.
Proof.
  destruct i as [|Title Description DueDate]; cbn [invoke].
  - exists [GetTasks_request w]. rewrite list_tasks_world.
    split; [reflexivity|]. split; [reflexivity|]. split; [reflexivity|].
    split; [|split; [reflexivity | cbn; lia]].
    constructor; [left; apply GetTasks_request_shape | constructor].
  - rewrite add_task_world.
    destruct (fst (createTask _ w)) as [created|e].
    + exists [CreateTask_request w (new_task Title Description DueDate);
              GetTasks_request w].
      split; [reflexivity|]. split; [reflexivity|].
      split; [cbn [logged sent]; by rewrite <- app_assoc|].
      split; [|split; [reflexivity | cbn; lia]].
      constructor; [right; apply CreateTask_request_shape|].
      constructor; [left; apply GetTasks_request_shape | constructor].
    + exists [CreateTask_request w (new_task Title Description DueDate)].
      split; [reflexivity|]. split; [reflexivity|]. split; [reflexivity|].
      split; [|split; [reflexivity | cbn; lia]].
      constructor; [right; apply CreateTask_request_shape | constructor].
Qed.

(** X1. Whatever calls the server handles and whatever the service answers,
    the server only ever sends the two requests of the client to the one
    base URL it started with: GETs of [GetTasks] without a body and POSTs of
    [CreateTask] that wrap a task built by [add-task] under [Task]. It sends
    one POST for every [add-task] call, none for [list-tasks], and at most
    one GET per call: nothing is retried. *)
Theorem serve_sends_only_client_requests calls w :
  ∃ new,
    sent (snd (serve calls w)) = (sent w ++ new)%list
    ∧ Forall (λ req, is_GetTasks (TASK_API_BASE w) req
                     ∨ is_CreateTask (TASK_API_BASE w) req) new
    ∧ count is_POST new = count is_AddTask calls
    ∧ (length new ≤ length calls + count is_AddTask calls)%nat.
Proof.
  assert (∃ new,
    env_TASK_API_BASE (snd (serve calls w)) = env_TASK_API_BASE w
    ∧ sent (snd (serve calls w)) = (sent w ++ new)%list
    ∧ Forall (λ req, is_GetTasks (TASK_API_BASE w) req
                     ∨ is_CreateTask (TASK_API_BASE w) req) new
    ∧ count is_POST new = count is_AddTask calls
    ∧ (length new ≤ length calls + count is_AddTask calls)%nat) as (new & _ & H).
  2: { by exists new. }
  revert w. induction calls as [|i calls IH]; intros w.
  - exists []. cbn [serve snd]. rewrite app_nil_r.
    split; [reflexivity|]. split; [reflexivity|]. split; [constructor|].
    split; [reflexivity | cbn; lia].
  - cbn [serve].
    destruct (invoke_world i w) as (new1 & Henv1 & _ & Hsent1 & Hshape1 & Hpost1 & Hlen1).
    destruct (invoke i w) as [r w1]. cbn [snd] in *.
    destruct (IH w1) as (new2 & Henv2 & Hsent2 & Hshape2 & Hpost2 & Hlen2).
    destruct (serve calls w1) as [rs w2]. cbn [snd] in *.
    exists (new1 ++ new2)%list.
    split; [congruence|].
    split; [by rewrite Hsent2, Hsent1, <- app_assoc|].
    split; [|split].
    + apply Forall_app. split; [exact Hshape1|].
      by rewrite (TASK_API_BASE_env w w1 Henv1) in Hshape2.
    + change (i :: calls) with ([i] ++ calls)%list.
      rewrite !count_app. congruence.
    + change (i :: calls) with ([i] ++ calls)%list.
      rewrite !count_app, !length_app. cbn [length]. lia.
Qed.

(** ** The outcomes of [fetchTasks] and of the handlers *)

(** X2. The result of [list-tasks] is decided by the answer to its one
    [GetTasks] request alone: two runs that get the same answer return the
    same result, whatever was sent before and whatever the base URL is. In
    particular two calls in a row that are answered alike return alike. *)
Theorem list_tasks_depends_on_the_answer_only w1 w2 :
  remote w1 (sent w1 ++ [GetTasks_request w1])%list
  = remote w2 (sent w2 ++ [GetTasks_request w2])%list →
  fst (list_tasks w1) = fst (list_tasks w2).
Proof.
  intros Hsame. rewrite !list_tasks_eq, !fetchTasks_eq, Hsame.
  destruct (remote w2 _) as [res|e]; [|reflexivity].
  destruct (ok res); [|reflexivity].
  destruct (json res) as [data|e]; [|reflexivity].
  by destruct (data_map fill_defaults data).
Qed.

Lemma nullish_coalesce_present v d : v ≠ JNull → Some v ?? d = v.
Proof. by destruct v. Qed.

(** X3. Filling the defaults twice is filling them once: a task that went
    through the callback of [fetchTasks] comes out of it unchanged. *)
Theorem with_defaults_idempotent task :
  with_defaults (with_defaults task) = with_defaults task.
Proof.
  unfold with_defaults at 1. unfold get. f_equal.
  set (filled := with_defaults task).
  assert (spread filled !! "Priority" = Some (get task "Priority" ?? JNum 0)) as HP.
  { apply get_with_defaults_Priority. }
  assert (spread filled !! "Status" = Some (get task "Status" ?? JNum 0)) as HS.
  { apply get_with_defaults_Status. }
  rewrite HP, HS.
  rewrite !nullish_coalesce_present by apply nullish_coalesce_number.
  rewrite (insert_id (spread filled) "Priority") by exact HP.
  rewrite (insert_id (spread filled) "Status") by exact HS.
  reflexivity.
Qed.

(** X4. When [GetTasks] answers with a JSON array, [fetchTasks] succeeds
    exactly when no element of the array is [null]: one [null] element makes
    the whole call fail, and the valid elements are not returned. *)
Theorem fetchTasks_succeeds_iff_no_null_element w data :
  GetTasks_returns w data →
  (∃ out, fst (fetchTasks w) = Fulfilled out) ↔ JNull ∉ data.
Proof.
  intros Hret. split.
  - intros [out Hout] Hnull.
    destruct (fetchTasks_null_element w data Hret Hnull) as [e He]. congruence.
  - intros Hnull. exists (with_defaults <$> data).
    rewrite (fetchTasks_success w data Hret); [reflexivity|].
    apply Forall_forall. intros t Hin ->. by apply Hnull.
Qed.

(** X5. The other ways [fetchTasks] fails. A [fetch] that rejects, and a
    success response whose [json()] rejects, make it reject with that very
    error; a success response whose JSON is not an array makes it throw a
    [TypeError]. In each case one request was sent. *)
Theorem fetchTasks_failures w :
  sent (snd (fetchTasks w)) = (sent w ++ [GetTasks_request w])%list
  ∧ (∀ e, remote w (sent w ++ [GetTasks_request w])%list = Rejected e →
       fst (fetchTasks w) = Rejected e)
  ∧ (∀ res, remote w (sent w ++ [GetTasks_request w])%list = Fulfilled res →
       ok res = true →
       (∀ e, json res = Rejected e → fst (fetchTasks w) = Rejected e)
       ∧ (∀ v, json res = Fulfilled v → (∀ l, v ≠ JArr l) →
            ∃ msg, fst (fetchTasks w) = Rejected (ThrownError TypeError msg))).
Proof.
  rewrite fetchTasks_eq. split; [reflexivity|]. split.
  - by intros e ->.
  - intros res -> ->. split.
    + by intros e ->.
    + intros v -> Hv. destruct v; try (eexists; reflexivity).
      by destruct (Hv l).
Qed.

Lemma failed_message_starts endpoint res :
  ∃ rest, failed_message endpoint res = endpoint ++ " failed: " ++ rest.
Proof. eexists. reflexivity. Qed.

(** X6. When [CreateTask] answers with a status outside 200-299, the
    handler of [add-task] stops there: the POST is the only request it sends
    (nothing is refetched), and it returns the failure result whose message
    names [CreateTask]; no message of a failed [GetTasks] is equal to it. *)
Theorem add_task_create_failure Title Description DueDate w res :
  let post := CreateTask_request w (new_task Title Description DueDate) in
  remote w (sent w ++ [post])%list = Fulfilled res →
  ok res = false →
  add_task Title Description DueDate w
  = (Fulfilled (failure (ThrownError Error (failed_message "CreateTask" res))),
     logged post w)
  ∧ sent (logged post w) = (sent w ++ [post])%list
  ∧ (∀ res', failed_message "CreateTask" res ≠ failed_message "GetTasks" res')
  ∧ ∃ r, fst (add_task Title Description DueDate w) = Fulfilled r
         ∧ payload r [] (JStr (failed_message "CreateTask" res)).
Proof.
  intros post Hres Hok.
  assert (add_task Title Description DueDate w
          = (Fulfilled (failure (ThrownError Error (failed_message "CreateTask" res))),
             logged post w)) as Hadd.
  { rewrite add_task_eq, createTask_eq. fold post. by rewrite Hres, Hok. }
  split; [exact Hadd|]. split; [reflexivity|]. split.
  2: { eexists. rewrite Hadd. split; [reflexivity|].
       apply (failure_reports (ThrownError Error (failed_message "CreateTask" res))). }
  - intros res' Heq.
    destruct (failed_message_starts "CreateTask" res) as [r1 H1].
    destruct (failed_message_starts "GetTasks" res') as [r2 H2].
    rewrite H1, H2 in Heq. discriminate Heq.
Qed.

(** ** [escapeHtml] *)

Lemma escapeHtml_cons c rest :
  UI.escapeHtml (String c rest) =
  if (N_of_ascii c =? 38)%N then "&amp;" ++ UI.escapeHtml rest
  else if (N_of_ascii c =? 60)%N then "&lt;" ++ UI.escapeHtml rest
  else if (N_of_ascii c =? 62)%N then "&gt;" ++ UI.escapeHtml rest
  else if (N_of_ascii c =? 194)%N then
    match rest with
    | String c' rest' =>
        if (N_of_ascii c' =? 160)%N then "&nbsp;" ++ UI.escapeHtml rest'
        else String c (UI.escapeHtml rest)
    | EmptyString => String c EmptyString
    end
  else String c (UI.escapeHtml rest).
Proof. destruct c as [[] [] [] [] [] [] [] []]; reflexivity. Qed.

Lemma bytes_cons c s : UI.bytes (String c s) = N_of_ascii c :: UI.bytes s.
Proof. reflexivity. Qed.

Lemma bytes_app s1 s2 : UI.bytes (s1 ++ s2) = (UI.bytes s1 ++ UI.bytes s2)%list.
Proof.
  induction s1 as [|c s1 IH]; [reflexivity|].
  change (UI.bytes (String c (s1 ++ s2))
          = (N_of_ascii c :: UI.bytes s1 ++ UI.bytes s2)%list).
  by rewrite bytes_cons, IH.
Qed.

Lemma escapeHtml_no_angle_upto n s :
  (String.length s ≤ n)%nat →
  Forall (λ b, b ≠ 60%N ∧ b ≠ 62%N) (UI.bytes (UI.escapeHtml s)).
Proof.
  revert s. induction n as [|n IH]; intros s Hlen.
  - destruct s; [constructor | simpl in Hlen; lia].
  - destruct s as [|c rest]; [constructor|].
    simpl in Hlen. assert (String.length rest ≤ n)%nat as Hrest by lia.
    pose proof (IH rest Hrest) as IHrest.
    rewrite escapeHtml_cons.
    destruct (N.eqb_spec (N_of_ascii c) 38) as [_|H38].
    { rewrite bytes_app. apply Forall_app. split; [|exact IHrest].
      repeat constructor; discriminate. }
    destruct (N.eqb_spec (N_of_ascii c) 60) as [_|H60].
    { rewrite bytes_app. apply Forall_app. split; [|exact IHrest].
      repeat constructor; discriminate. }
    destruct (N.eqb_spec (N_of_ascii c) 62) as [_|H62].
    { rewrite bytes_app. apply Forall_app. split; [|exact IHrest].
      repeat constructor; discriminate. }
    destruct (N.eqb_spec (N_of_ascii c) 194) as [H194|_].
    + destruct rest as [|c' rest'].
      * rewrite bytes_cons, H194. repeat constructor; discriminate.
      * destruct (N.eqb_spec (N_of_ascii c') 160) as [_|_].
        -- rewrite bytes_app. apply Forall_app. split.
           ++ repeat constructor; discriminate.
           ++ apply IH. simpl in Hrest. lia.
        -- rewrite bytes_cons. constructor; [by split | exact IHrest].
    + rewrite bytes_cons. constructor; [by split | exact IHrest].
Qed.

(** X7. The text [escapeHtml] returns holds neither [<] nor [>]: whatever
    the title or the description of a task is, it opens and closes no tag
    in the markup of the list. *)
Theorem escapeHtml_no_angle_bracket s :
  Forall (λ b, b ≠ 60%N ∧ b ≠ 62%N) (UI.bytes (UI.escapeHtml s)).
Proof. by apply (escapeHtml_no_angle_upto (String.length s)). Qed.

(** X8. A text without [&], [<], [>] and without the byte 194 (the first
    byte of a no-break space) is returned by [escapeHtml] as it is. *)
Theorem escapeHtml_plain_text s :
  Forall (λ b, b ≠ 38%N ∧ b ≠ 60%N ∧ b ≠ 62%N ∧ b ≠ 194%N) (UI.bytes s) →
  UI.escapeHtml s = s.
Proof.
  induction s as [|c rest IH]; [reflexivity|].
  rewrite bytes_cons. intros Hplain.
  apply Forall_cons in Hplain as [(H38 & H60 & H62 & H194) Hrest].
  rewrite escapeHtml_cons.
  apply N.eqb_neq in H38, H60, H62, H194. rewrite H38, H60, H62, H194.
  by rewrite (IH Hrest).
Qed.

Lemma escapeHtml_plain_text_witness : UI.escapeHtml "Buy milk" = "Buy milk".
Proof.
  apply (escapeHtml_plain_text "Buy milk").
  repeat constructor; discriminate.
Defined.

(** ** [trim] *)

(** [strip] returns what is left of the list after a prefix of it. *)
Lemma strip_suffix_upto back n l :
  (length l ≤ n)%nat → ∃ pre, l = (pre ++ UI.strip back l)%list.
Proof.
  revert l. induction n as [|n IH]; intros l Hlen.
  - destruct l; [by exists [] | simpl in Hlen; lia].
  - destruct l as [|a r1]; [by exists []|]. cbn [UI.strip].
    simpl in Hlen.
    destruct (UI.white_space_1 a).
    { destruct (IH r1) as [pre Hpre]; [lia|]. exists (a :: pre).
      cbn [app]. by rewrite <- Hpre. }
    destruct r1 as [|b r2]; [by exists []|]. simpl in Hlen.
    destruct (if back then UI.white_space_2 b a else UI.white_space_2 a b).
    { destruct (IH r2) as [pre Hpre]; [lia|]. exists (a :: b :: pre).
      cbn [app]. by rewrite <- Hpre. }
    destruct r2 as [|c r3]; [by exists []|]. simpl in Hlen.
    destruct (if back then UI.white_space_3 c b a else UI.white_space_3 a b c).
    { destruct (IH r3) as [pre Hpre]; [lia|]. exists (a :: b :: c :: pre).
      cbn [app]. by rewrite <- Hpre. }
    by exists [].
Qed.

Lemma strip_suffix back l : ∃ pre, l = (pre ++ UI.strip back l)%list.
Proof. by apply (strip_suffix_upto back (length l)). Qed.

Lemma strip_length back l : (length (UI.strip back l) ≤ length l)%nat.
Proof.
  destruct (strip_suffix back l) as [pre Hpre].
  rewrite Hpre at 2. rewrite length_app. lia.
Qed.

Lemma strip_idempotent_upto back n l :
  (length l ≤ n)%nat → UI.strip back (UI.strip back l) = UI.strip back l.
Proof.
  revert l. induction n as [|n IH]; intros l Hlen.
  - destruct l; [reflexivity | simpl in Hlen; lia].
  - destruct l as [|a r1]; [reflexivity|]. cbn [UI.strip]. simpl in Hlen.
    destruct (UI.white_space_1 a) eqn:H1; [apply IH; lia|].
    destruct r1 as [|b r2]; [cbn [UI.strip]; by rewrite H1|]. simpl in Hlen.
    destruct (if back then UI.white_space_2 b a else UI.white_space_2 a b) eqn:H2;
      [apply IH; lia|].
    destruct r2 as [|c r3]; [cbn [UI.strip]; by rewrite H1, H2|]. simpl in Hlen.
    destruct (if back then UI.white_space_3 c b a else UI.white_space_3 a b c) eqn:H3;
      [apply IH; lia|].
    cbn [UI.strip]. by rewrite H1, H2, H3.
Qed.

Lemma strip_idempotent back l : UI.strip back (UI.strip back l) = UI.strip back l.
Proof. by apply (strip_idempotent_upto back (length l)). Qed.

Lemma strip_cons back a r1 :
  UI.strip back (a :: r1) =
  if UI.white_space_1 a then UI.strip back r1
  else
    match r1 with
    | b :: r2 =>
        if (if back then UI.white_space_2 b a else UI.white_space_2 a b)
        then UI.strip back r2
        else
          match r2 with
          | c :: r3 =>
              if (if back then UI.white_space_3 c b a else UI.white_space_3 a b c)
              then UI.strip back r3
              else a :: r1
          | [] => a :: r1
          end
    | [] => a :: r1
    end.
Proof. reflexivity. Qed.

(** A list that [strip] leaves alone has prefixes that [strip] leaves
    alone. *)
Lemma strip_fixed_prefix back l1 l2 :
  UI.strip back (l1 ++ l2) = (l1 ++ l2)%list → UI.strip back l1 = l1.
Proof.
  assert (∀ l k : list N, (length l < length k)%nat → UI.strip back l ≠ k) as Hshort.
  { intros l k Hlt Heq. pose proof (strip_length back l) as Hle.
    rewrite Heq in Hle. lia. }
  destruct l1 as [|a r1]; [reflexivity|]. cbn [app]. intros Hfix.
  rewrite strip_cons in Hfix. rewrite strip_cons.
  destruct (UI.white_space_1 a).
  { exfalso. eapply Hshort; [|exact Hfix]. simpl. lia. }
  destruct r1 as [|b r2]; [reflexivity|].
  cbn [app] in Hfix. cbv beta iota in Hfix |- *.
  destruct (if back then UI.white_space_2 b a else UI.white_space_2 a b).
  { exfalso. eapply Hshort; [|exact Hfix]. simpl. lia. }
  destruct r2 as [|c r3]; [reflexivity|].
  cbn [app] in Hfix. cbv beta iota in Hfix |- *.
  destruct (if back then UI.white_space_3 c b a else UI.white_space_3 a b c);
    [|reflexivity].
  exfalso. eapply Hshort; [|exact Hfix]. simpl. lia.
Qed.

Lemma trimmed_bytes_idempotent l :
  let T := λ l, reverse (UI.strip true (reverse (UI.strip false l))) in
  T (T l) = T l.
Proof.
  intros T. unfold T.
  set (y := UI.strip false l). set (z := UI.strip true (reverse y)).
  assert (UI.strip false (reverse z) = reverse z) as Hfront.
  { destruct (strip_suffix true (reverse y)) as [pre Hpre]. fold z in Hpre.
    apply (strip_fixed_prefix false (reverse z) (reverse pre)).
    rewrite <- reverse_app, <- Hpre, reverse_involutive.
    apply strip_idempotent. }
  rewrite Hfront, reverse_involutive. unfold z. by rewrite strip_idempotent.
Qed.

Lemma trimmed_bytes_infix l :
  ∃ pre post,
    l = (pre ++ reverse (UI.strip true (reverse (UI.strip false l))) ++ post)%list.
Proof.
  destruct (strip_suffix false l) as [pre Hpre].
  destruct (strip_suffix true (reverse (UI.strip false l))) as [post Hpost].
  exists pre, (reverse post).
  rewrite <- reverse_app, <- Hpost, reverse_involutive. exact Hpre.
Qed.

Lemma bytes_bounded s : Forall (λ b, (b < 256)%N) (UI.bytes s).
Proof.
  induction s as [|c s IH]; [constructor|].
  rewrite bytes_cons. constructor; [apply N_ascii_bounded | exact IH].
Qed.

Lemma of_bytes_bytes s : UI.of_bytes (UI.bytes s) = s.
Proof.
  induction s as [|c s IH]; [reflexivity|].
  rewrite bytes_cons. unfold UI.of_bytes in *. cbn [fmap list_fmap string_of_list_ascii].
  by rewrite ascii_N_embedding, IH.
Qed.

Lemma bytes_of_bytes l : Forall (λ b, (b < 256)%N) l → UI.bytes (UI.of_bytes l) = l.
Proof.
  induction 1 as [|b l Hb _ IH]; [reflexivity|].
  unfold UI.of_bytes in *. cbn [fmap list_fmap string_of_list_ascii].
  by rewrite bytes_cons, N_ascii_embedding, IH.
Qed.

Lemma of_bytes_app l1 l2 : UI.of_bytes (l1 ++ l2) = UI.of_bytes l1 ++ UI.of_bytes l2.
Proof.
  induction l1 as [|b l1 IH]; [reflexivity|].
  unfold UI.of_bytes in *. cbn [app fmap list_fmap string_of_list_ascii].
  change (String (ascii_of_N b) (string_of_list_ascii (ascii_of_N <$> (l1 ++ l2)%list))
          = String (ascii_of_N b)
              (string_of_list_ascii (ascii_of_N <$> l1)
               ++ string_of_list_ascii (ascii_of_N <$> l2))).
  by rewrite IH.
Qed.

Lemma strip_bounded back l :
  Forall (λ b, (b < 256)%N) l → Forall (λ b, (b < 256)%N) (UI.strip back l).
Proof.
  intros Hl. destruct (strip_suffix back l) as [pre Hpre].
  rewrite Hpre in Hl. by apply Forall_app in Hl as [_ ?].
Qed.

Lemma bytes_trim s :
  UI.bytes (UI.trim s)
  = reverse (UI.strip true (reverse (UI.strip false (UI.bytes s)))).
Proof.
  unfold UI.trim. apply bytes_of_bytes.
  apply Forall_reverse, strip_bounded, Forall_reverse, strip_bounded, bytes_bounded.
Qed.

Lemma trim_trim s : UI.trim (UI.trim s) = UI.trim s.
Proof.
  unfold UI.trim at 1. rewrite bytes_trim.
  rewrite (trimmed_bytes_idempotent (UI.bytes s)). reflexivity.
Qed.

(** X9. [trim] only takes away from the two ends of a text, and a trimmed
    text has nothing more to take away: trimming it again changes nothing. *)
Theorem trim_idempotent_infix s :
  UI.trim (UI.trim s) = UI.trim s
  ∧ ∃ pre post, s = pre ++ UI.trim s ++ post.
Proof.
  split; [apply trim_trim|].
  destruct (trimmed_bytes_infix (UI.bytes s)) as (pre & post & Hs).
  exists (UI.of_bytes pre), (UI.of_bytes post).
  rewrite <- (of_bytes_bytes s) at 1. rewrite Hs at 1.
  rewrite !of_bytes_app. reflexivity.
Qed.

(** ** Rendering and the status *)

Section UIFurther.

Variable toLocaleDateString : string → string.
Variable toISOString : string → outcome string.

Lemma append_empty_l (s : string) : "" ++ s = s.
Proof. reflexivity. Qed.

Lemma concat_cons (x : string) (l : list string) :
  String.concat "" (x :: l) = x ++ String.concat "" l.
Proof.
  destruct l as [|y l]; [by rewrite append_empty_r|]. reflexivity.
Qed.

Lemma concat_app (l1 l2 : list string) :
  String.concat "" (l1 ++ l2) = String.concat "" l1 ++ String.concat "" l2.
Proof.
  induction l1 as [|x l1 IH]; [reflexivity|].
  cbn [app]. by rewrite !concat_cons, IH, append_assoc.
Qed.

Lemma task_item_starts t :
  ∃ rest, UI.task_item toLocaleDateString t = String "010" rest.
Proof. eexists. reflexivity. Qed.

(** X10. The placeholder is the markup of the empty list and of no other
    list; the markup of a list that is not empty is made of one block per
    task, in the order of the tasks: the markup of two such lists put end to
    end is their markups put end to end. *)
Theorem list_markup_blocks :
  (∀ ts, UI.list_markup toLocaleDateString ts = UI.empty_placeholder ↔ ts = [])
  ∧ (∀ t ts, UI.list_markup toLocaleDateString (t :: ts)
             = UI.task_item toLocaleDateString t
               ++ String.concat "" (UI.task_item toLocaleDateString <$> ts))
  ∧ (∀ l1 l2, l1 ≠ [] → l2 ≠ [] →
       UI.list_markup toLocaleDateString (l1 ++ l2)
       = UI.list_markup toLocaleDateString l1
         ++ UI.list_markup toLocaleDateString l2).
Proof.
  split; [|split].
  - intros ts. split; [|by intros ->].
    destruct ts as [|t ts]; [reflexivity|]. intros Hmarkup. exfalso.
    unfold UI.list_markup in Hmarkup. rewrite fmap_cons, concat_cons in Hmarkup.
    destruct (task_item_starts t) as [rest Hrest]. rewrite Hrest in Hmarkup.
    discriminate Hmarkup.
  - intros t ts. unfold UI.list_markup. by rewrite fmap_cons, concat_cons.
  - intros l1 l2 H1 H2.
    destruct l1 as [|t1 l1]; [done|]. destruct l2 as [|t2 l2]; [done|].
    unfold UI.list_markup. cbn [app]. rewrite !fmap_cons, fmap_app, fmap_cons.
    change (UI.task_item toLocaleDateString t1
              :: (UI.task_item toLocaleDateString <$> l1)
              ++ UI.task_item toLocaleDateString t2
                 :: (UI.task_item toLocaleDateString <$> l2))%list
      with ((UI.task_item toLocaleDateString t1
              :: (UI.task_item toLocaleDateString <$> l1))
            ++ (UI.task_item toLocaleDateString t2
                 :: (UI.task_item toLocaleDateString <$> l2)))%list.
    apply concat_app.
Qed.

(** X11. A message shown while an earlier one still has its timeout
    pending is hidden by that earlier timeout: on a page without pending
    timeouts, after two messages the first timeout to elapse hides the
    second message, and the timeout of the second message is still pending. *)
Theorem earlier_timeout_hides_later_message m1 m2 d :
  UI.timeouts d = [] →
  let d' := UI.timeout_fires (UI.showStatus m2 (UI.showStatus m1 d)) in
  UI.statusEl_textContent d' = m2
  ∧ UI.statusEl_display d' = "none"
  ∧ UI.timeouts d' = [2000%N].
Proof.
  intros Hnone d'. subst d'. unfold UI.timeout_fires, UI.showStatus.
  cbn [UI.timeouts UI.set_status]. rewrite Hnone. by repeat split.
Qed.

Lemma earlier_timeout_hides_later_message_witness :
  UI.statusEl_display
    (UI.timeout_fires (UI.showStatus "b" (UI.showStatus "a" filled_page))) = "none".
Proof.
  destruct (earlier_timeout_hides_later_message "a" "b" filled_page eq_refl)
    as (_ & Hdisplay & _).
  exact Hdisplay.
Defined.

End UIFurther.

(** ** [addTask] and the event loop *)

Section EventLoop.

Variable toLocaleDateString : string → string.
Variable toISOString : string → outcome string.

(** X12. With a title that is not blank, [addTask] goes one of two ways. If
    a date is typed in and cannot be converted, it throws before it has
    touched anything: no call is made and the inputs keep their text.
    Otherwise it makes exactly one call, [add-task] with the trimmed title,
    the trimmed description and the converted date (the current instant when
    no date is typed in), and before that call settles the three inputs are
    already empty and the status shows the submitting message; the list is
    not touched. *)
Theorem addTask_start_cases now d :
  UI.trim (UI.titleInput_value d) ≠ "" →
  (∀ e, UI.dateInput_value d ≠ "" →
        toISOString (UI.dateInput_value d) = Rejected e →
        UI.addTask_start toISOString now d = (Rejected e, d))
  ∧ (∀ DueDate,
       (UI.dateInput_value d = "" ∧ DueDate = now)
       ∨ (UI.dateInput_value d ≠ ""
          ∧ toISOString (UI.dateInput_value d) = Fulfilled DueDate) →
       ∃ d', UI.addTask_start toISOString now d
             = (Fulfilled (Some {| UI.name := "add-task";
                                   UI.arg_Title := UI.trim (UI.titleInput_value d);
                                   UI.arg_Description := UI.trim (UI.descInput_value d);
                                   UI.arg_DueDate := DueDate |}), d')
         ∧ UI.calls d' = (UI.calls d ++ [{| UI.name := "add-task";
                                   UI.arg_Title := UI.trim (UI.titleInput_value d);
                                   UI.arg_Description := UI.trim (UI.descInput_value d);
                                   UI.arg_DueDate := DueDate |}])%list
         ∧ UI.titleInput_value d' = "" ∧ UI.descInput_value d' = ""
         ∧ UI.dateInput_value d' = ""
         ∧ UI.statusEl_textContent d' = "追加中..."
         ∧ UI.statusEl_display d' = "block"
         ∧ same_list d d').
Proof.
  intros Htitle. apply truthy_string_nonempty in Htitle.
  unfold UI.addTask_start. rewrite Htitle. cbn [negb]. split.
  - intros e Hdate Hthrows. apply truthy_string_nonempty in Hdate.
    by rewrite Hdate, Hthrows.
  - intros DueDate [[Hdate ->]|[Hdate Hiso]].
    + rewrite Hdate. cbn [truthy_string]. eexists. split; [reflexivity|].
      by repeat split.
    + apply truthy_string_nonempty in Hdate. rewrite Hdate, Hiso.
      eexists. split; [reflexivity|]. by repeat split.
Qed.

Lemma handleToolResult_same_list_or_rendered result d :
  same_list d (UI.handleToolResult toLocaleDateString result d)
  ∨ ∃ ts, UI.taskListEl_innerHTML (UI.handleToolResult toLocaleDateString result d)
          = UI.list_markup toLocaleDateString ts
          ∧ UI.countEl_textContent (UI.handleToolResult toLocaleDateString result d)
            = pretty (length ts) ++ " 件".
Proof.
  unfold UI.handleToolResult.
  destruct (UI.truthy_flag _); [by left|].
  destruct (UI.truthy_error _); [by left|].
  destruct (UI.structuredContent result ≫= UI.tasks) as [ts|]; [|by left].
  right. by exists ts.
Qed.

(** X13. When the call of [addTask] resolves, the status ends up showing
    the success message whatever the result says: a result that carries an
    error marker has its error message replaced at once by the success
    message, and the list stays as it was. When the call rejects, the
    failure message is shown and the list, the inputs and the calls made
    stay as they were. *)
Theorem addTask_resume_status d :
  (∀ result,
     let d' := UI.addTask_resume toLocaleDateString (Fulfilled result) d in
     UI.statusEl_textContent d' = "追加しました！"
     ∧ UI.statusEl_display d' = "block"
     ∧ (UI.isError result = Some true
        ∨ (∃ data msg, UI.structuredContent result = Some data
                       ∧ UI.error data = Some msg ∧ msg ≠ "") →
        same_list d d'
        ∧ UI.timeouts d' = (UI.timeouts d ++ [2000%N; 2000%N])%list))
  ∧ (∀ e,
       let d' := UI.addTask_resume toLocaleDateString (Rejected e) d in
       d' = UI.showStatus "追加に失敗しました" d
       ∧ same_list d d'
       ∧ UI.calls d' = UI.calls d
       ∧ UI.titleInput_value d' = UI.titleInput_value d).
Proof.
  split.
  - intros result d'. subst d'. cbn [UI.addTask_resume].
    split; [reflexivity|]. split; [reflexivity|].
    intros Hmarker.
    assert (∃ message, UI.handleToolResult toLocaleDateString result d
                       = UI.showStatus message d) as [message ->].
    { destruct (decide (UI.isError result = Some true)) as [Hflag|Hflag].
      - eexists. by apply handleToolResult_flagged.
      - destruct Hmarker as [Hflag'|(data & msg & Hdata & Herr & Hmsg)]; [done|].
        eexists. by eapply handleToolResult_error. }
    split; [by split|]. cbn. by rewrite <- app_assoc.
  - intros e d'. subst d'. by repeat split.
Qed.

Lemma in_sync_same_list d d' :
  same_list d d' → in_sync toLocaleDateString d → in_sync toLocaleDateString d'.
Proof. intros [Hlist Hcount] (ts & H1 & H2). exists ts. split; congruence. Qed.

Lemma addTask_start_same_list now d :
  same_list d (snd (UI.addTask_start toISOString now d)).
Proof.
  unfold UI.addTask_start.
  destruct (negb _); [by split|].
  by destruct (if truthy_string (UI.dateInput_value d) then _ else _).
Qed.

Lemma submit_in_sync now p :
  in_sync toLocaleDateString (UI.dom p) →
  in_sync toLocaleDateString (UI.dom (UI.submit toISOString now p)).
Proof.
  apply in_sync_same_list. unfold UI.submit.
  pose proof (addTask_start_same_list now (UI.dom p)) as Hsame.
  by destruct (UI.addTask_start toISOString now (UI.dom p)) as [[[c|]|e] d'].
Qed.

Lemma handleToolResult_in_sync result d :
  in_sync toLocaleDateString d →
  in_sync toLocaleDateString (UI.handleToolResult toLocaleDateString result d).
Proof.
  intros Hsync.
  destruct (handleToolResult_same_list_or_rendered result d) as [Hsame|Hts].
  - by eapply in_sync_same_list.
  - exact Hts.
Qed.

Lemma step_in_sync p e :
  in_sync toLocaleDateString (UI.dom p) →
  in_sync toLocaleDateString
    (UI.dom (UI.step toLocaleDateString toISOString p e)).
Proof.
  intros Hsync. destruct e as [result|now|key now|settled|]; cbn [UI.step].
  - by apply handleToolResult_in_sync.
  - by apply submit_in_sync.
  - destruct (String.eqb key "Enter"); [by apply submit_in_sync | done].
  - destruct (UI.awaiting p); [done|]. cbn [UI.dom].
    destruct settled as [result|e]; cbn [UI.addTask_resume].
    + eapply in_sync_same_list; [|by apply (handleToolResult_in_sync result)].
      by split.
    + eapply in_sync_same_list; [|exact Hsync]. by split.
  - cbn [UI.dom]. eapply in_sync_same_list; [|exact Hsync].
    unfold UI.timeout_fires. by destruct (UI.timeouts (UI.dom p)).
Qed.

(** X14. The list element and the count element always show the same list:
    once they show the same list of tasks, they do so after any events, in
    whatever order these come. *)
Theorem run_keeps_list_and_count_in_sync es p :
  in_sync toLocaleDateString (UI.dom p) →
  in_sync toLocaleDateString (UI.dom (UI.run toLocaleDateString toISOString es p)).
Proof.
  revert p. induction es as [|e es IH]; intros p Hsync; [exact Hsync|].
  apply IH, step_in_sync, Hsync.
Qed.

Lemma handleToolResult_calls result d :
  UI.calls (UI.handleToolResult toLocaleDateString result d) = UI.calls d.
Proof.
  unfold UI.handleToolResult.
  destruct (UI.truthy_flag _); [done|].
  destruct (UI.truthy_error _); [done|].
  by destruct (UI.structuredContent result ≫= UI.tasks).
Qed.

Lemma submit_calls now p :
  (UI.calls (UI.dom (UI.submit toISOString now p)) = UI.calls (UI.dom p)
   ∧ UI.awaiting (UI.submit toISOString now p) = UI.awaiting p)
  ∨ (∃ c, proper_call c
          ∧ UI.calls (UI.dom (UI.submit toISOString now p))
            = (UI.calls (UI.dom p) ++ [c])%list
          ∧ UI.awaiting (UI.submit toISOString now p) = S (UI.awaiting p)).
Proof.
  unfold UI.submit, UI.addTask_start.
  destruct (truthy_string (UI.trim (UI.titleInput_value (UI.dom p)))) eqn:Htitle;
    cbn [negb]; [|by left].
  destruct (if truthy_string (UI.dateInput_value (UI.dom p)) then _ else _)
    as [DueDate|e]; [|by left].
  right. eexists. split; [|by split].
  split; [reflexivity|]. cbn [UI.arg_Title UI.arg_Description].
  split; [by apply truthy_string_nonempty|]. split; apply trim_trim.
Qed.

Lemma step_calls p e :
  (UI.calls (UI.dom (UI.step toLocaleDateString toISOString p e)) = UI.calls (UI.dom p)
   ∧ (UI.awaiting (UI.step toLocaleDateString toISOString p e) ≤ UI.awaiting p)%nat)
  ∨ (∃ c, proper_call c
          ∧ UI.calls (UI.dom (UI.step toLocaleDateString toISOString p e))
            = (UI.calls (UI.dom p) ++ [c])%list
          ∧ UI.awaiting (UI.step toLocaleDateString toISOString p e)
            = S (UI.awaiting p)
          ∧ is_submit e = true).
Proof.
  destruct e as [result|now|key now|settled|]; cbn [UI.step is_submit].
  - left. split; [apply handleToolResult_calls | done].
  - destruct (submit_calls now p) as [[-> ->]|(c & Hc & Hcalls & Hwait)];
      [by left | right; by exists c].
  - destruct (String.eqb key "Enter"); [|by left].
    destruct (submit_calls now p) as [[-> ->]|(c & Hc & Hcalls & Hwait)];
      [by left | right; by exists c].
  - left. destruct (UI.awaiting p) as [|n] eqn:Hwait; [by rewrite Hwait|].
    cbn [UI.dom UI.awaiting]. split; [|lia].
    destruct settled as [result|e]; cbn [UI.addTask_resume]; [|done].
    apply handleToolResult_calls.
  - left. split; [|done]. cbn [UI.dom]. unfold UI.timeout_fires.
    by destruct (UI.timeouts (UI.dom p)).
Qed.

(** X15. The controller calls the tool only when the user submits, at most
    once per submission, and always properly: after any events, every call
    made is [add-task] with a title that is not empty and that is trimmed,
    and a trimmed description; the calls made before are still there, in
    order; and no more runs of [addTask] wait for an answer than calls were
    made. *)
Theorem run_makes_proper_calls es p :
  Forall proper_call (UI.calls (UI.dom p)) →
  (UI.awaiting p ≤ length (UI.calls (UI.dom p)))%nat →
  let p' := UI.run toLocaleDateString toISOString es p in
  Forall proper_call (UI.calls (UI.dom p'))
  ∧ UI.calls (UI.dom p) `prefix_of` UI.calls (UI.dom p')
  ∧ (UI.awaiting p' ≤ length (UI.calls (UI.dom p')))%nat
  ∧ (length (UI.calls (UI.dom p'))
     ≤ length (UI.calls (UI.dom p)) + count is_submit es)%nat.
Proof.
  revert p. induction es as [|e es IH]; intros p Hproper Hwait p'; subst p'.
  - cbn [UI.run foldl]. split; [done|]. split; [done|]. split; [done|].
    cbn. lia.
  - change (UI.run toLocaleDateString toISOString (e :: es) p)
      with (UI.run toLocaleDateString toISOString es
              (UI.step toLocaleDateString toISOString p e)).
    change (e :: es) with ([e] ++ es)%list. rewrite count_app.
    destruct (step_calls p e) as [[Hcalls Hle]|(c & Hc & Hcalls & Hw & Hsub)].
    + destruct (IH (UI.step toLocaleDateString toISOString p e))
        as (H1 & H2 & H3 & H4).
      { by rewrite Hcalls. } { rewrite Hcalls. lia. }
      rewrite Hcalls in H2, H4.
      split; [done|]. split; [done|]. split; [done|]. lia.
    + destruct (IH (UI.step toLocaleDateString toISOString p e))
        as (H1 & H2 & H3 & H4).
      { rewrite Hcalls. apply Forall_app. split; [done|]. by constructor. }
      { rewrite Hcalls, Hw, length_app. cbn. lia. }
      rewrite Hcalls in H2, H4. rewrite length_app in H4. cbn [length] in H4.
      split; [done|]. split.
      { etrans; [|exact H2]. by apply prefix_app_r. }
      split; [done|].
      unfold count at 1. cbn [List.filter]. rewrite Hsub. cbn [length]. lia.
Qed.

Lemma showStatus_will_hide message d : will_hide (UI.showStatus message d).
Proof.
  intros _. unfold UI.showStatus. cbn [UI.timeouts UI.set_status].
  by destruct (UI.timeouts d).
Qed.

Lemma handleToolResult_will_hide result d :
  will_hide d → will_hide (UI.handleToolResult toLocaleDateString result d).
Proof.
  intros Hd. unfold UI.handleToolResult.
  destruct (UI.truthy_flag _); [apply showStatus_will_hide|].
  destruct (UI.truthy_error _); [apply showStatus_will_hide|].
  destruct (UI.structuredContent result ≫= UI.tasks); [|done].
  intros Hblock. discriminate Hblock.
Qed.

Lemma timeout_fires_will_hide d : will_hide d → will_hide (UI.timeout_fires d).
Proof.
  intros Hd. unfold UI.timeout_fires.
  destruct (UI.timeouts d); [done|]. intros Hblock. discriminate Hblock.
Qed.

Lemma submit_will_hide now p :
  will_hide (UI.dom p) → will_hide (UI.dom (UI.submit toISOString now p)).
Proof.
  intros Hd. unfold UI.submit, UI.addTask_start.
  destruct (negb _); [done|].
  destruct (if truthy_string (UI.dateInput_value (UI.dom p)) then _ else _); [|done].
  cbn [UI.dom]. intros _. unfold UI.showStatus. cbn.
  by destruct (UI.timeouts (UI.dom p)).
Qed.

Lemma step_will_hide p e :
  will_hide (UI.dom p) →
  will_hide (UI.dom (UI.step toLocaleDateString toISOString p e)).
Proof.
  intros Hd. destruct e as [result|now|key now|settled|]; cbn [UI.step].
  - by apply handleToolResult_will_hide.
  - by apply submit_will_hide.
  - destruct (String.eqb key "Enter"); [by apply submit_will_hide | done].
  - destruct (UI.awaiting p); [done|]. cbn [UI.dom].
    destruct settled; apply showStatus_will_hide.
  - by apply timeout_fires_will_hide.
Qed.

Lemma run_will_hide es p :
  will_hide (UI.dom p) →
  will_hide (UI.dom (UI.run toLocaleDateString toISOString es p)).
Proof.
  revert p. induction es as [|e es IH]; intros p Hd; [exact Hd|].
  apply IH, step_will_hide, Hd.
Qed.

Lemma timeouts_elapse n p :
  length (UI.timeouts (UI.dom p)) = n →
  will_hide (UI.dom p) →
  UI.statusEl_display
    (UI.dom (UI.run toLocaleDateString toISOString
               (replicate n UI.TimeoutElapsed) p)) ≠ "block".
Proof.
  revert p. induction n as [|n IH]; intros p Hlen Hd.
  - cbn [replicate UI.run foldl]. intros Hblock.
    apply Hd in Hblock. by destruct (UI.timeouts (UI.dom p)).
  - cbn [replicate].
    change (UI.run toLocaleDateString toISOString
              (UI.TimeoutElapsed :: replicate n UI.TimeoutElapsed) p)
      with (UI.run toLocaleDateString toISOString (replicate n UI.TimeoutElapsed)
              (UI.step toLocaleDateString toISOString p UI.TimeoutElapsed)).
    apply IH; [|by apply step_will_hide].
    cbn [UI.step UI.dom]. unfold UI.timeout_fires.
    destruct (UI.timeouts (UI.dom p)) as [|t rest]; [discriminate|].
    cbn in *. lia.
Qed.

(** X16. No status message stays: starting from a page on which a displayed
    status has a timeout pending (a page that displays none is one), after
    any events a displayed status still has a timeout pending, and once the
    timeouts pending then have all elapsed the status is not displayed. *)
Theorem status_is_transient es p :
  will_hide (UI.dom p) →
  let p' := UI.run toLocaleDateString toISOString es p in
  will_hide (UI.dom p')
  ∧ UI.statusEl_display
      (UI.dom (UI.run toLocaleDateString toISOString
                 (replicate (length (UI.timeouts (UI.dom p'))) UI.TimeoutElapsed) p'))
    ≠ "block".
Proof.
  intros Hd p'. pose proof (run_will_hide es p Hd) as Hd'. fold p' in Hd'.
  split; [exact Hd'|]. by apply timeouts_elapse.
Qed.

End EventLoop.

Lemma addTask_start_cases_witness :
  ∃ d', UI.addTask_start midnight "2024-03-04T05:06:07.000Z" filled_page
        = (Fulfilled (Some {| UI.name := "add-task"; UI.arg_Title := "Buy milk";
                              UI.arg_Description := "2 litres";
                              UI.arg_DueDate := "2024-03-04T05:06:07.000Z" |}), d')
        ∧ UI.titleInput_value d' = "".
Proof.
  destruct (addTask_start_cases midnight "2024-03-04T05:06:07.000Z" filled_page)
    as [_ Hcall].
  { vm_compute. discriminate. }
  destruct (Hcall "2024-03-04T05:06:07.000Z") as (d' & Hstart & _ & Htitle & _).
  { left. split; reflexivity. }
  exists d'. split; [exact Hstart | exact Htitle].
Defined.

Lemma addTask_resume_status_witness :
  UI.statusEl_textContent
    (UI.addTask_resume date_part (Fulfilled error_result_db_down) blank_title_page)
  = "追加しました！"
  ∧ same_list blank_title_page
      (UI.addTask_resume date_part (Fulfilled error_result_db_down) blank_title_page).
Proof.
  destruct (addTask_resume_status date_part blank_title_page) as [Hresolved _].
  destruct (Hresolved error_result_db_down) as (Htext & _ & Hmarker).
  split; [exact Htext|]. apply Hmarker. right.
  eexists. exists "db down". split; [reflexivity|]. split; [reflexivity|discriminate].
Defined.

(** ** The base URL *)

(** X17. The base URL is never empty: it is the environment variable when
    that is set to a text that is not empty, and the built-in address when
    the variable is unset or set to the empty text. *)
Theorem TASK_API_BASE_fallback w :
  TASK_API_BASE w ≠ ""
  ∧ (∀ s, env_TASK_API_BASE w = Some s → s ≠ "" → TASK_API_BASE w = s)
  ∧ (env_TASK_API_BASE w = None ∨ env_TASK_API_BASE w = Some "" →
     TASK_API_BASE w = "https://xxx.outsystems.app/TaskManagementAPI/rest/Mcp").
Proof.
  unfold TASK_API_BASE. split; [|split].
  - destruct (env_TASK_API_BASE w) as [[|c s]|]; discriminate.
  - intros s -> Hs. apply truthy_string_nonempty in Hs. by rewrite Hs.
  - by intros [->| ->].
Qed.

Lemma TASK_API_BASE_fallback_witness :
  TASK_API_BASE {| env_TASK_API_BASE := Some ""; remote := unreachable_service;
                   sent := [] |}
  = "https://xxx.outsystems.app/TaskManagementAPI/rest/Mcp".
Proof.
  destruct (TASK_API_BASE_fallback
              {| env_TASK_API_BASE := Some ""; remote := unreachable_service;
                 sent := [] |}) as (_ & _ & Hdefault).
  apply Hdefault. by right.
Defined.

(** ** The further properties on concrete runs *)

Lemma list_tasks_depends_on_the_answer_only_witness :
  let w := world (constant_service (ok_json (JArr [buy_milk_wire]))) in
  fst (list_tasks w) = fst (list_tasks (snd (list_tasks w))).
Proof.
  intros w.
  apply (list_tasks_depends_on_the_answer_only w (snd (list_tasks w))).
  reflexivity.
Defined.

Lemma fetchTasks_succeeds_iff_no_null_element_witness :
  let w := world (constant_service (ok_json (JArr [buy_milk_wire]))) in
  ∃ out, fst (fetchTasks w) = Fulfilled out.
Proof.
  intros w.
  apply (fetchTasks_succeeds_iff_no_null_element w [buy_milk_wire] buy_milk_returned).
  intros Hnull. apply list_elem_of_singleton in Hnull. discriminate Hnull.
Defined.

Lemma fetchTasks_failures_witness :
  fst (fetchTasks (world unreachable_service))
  = Rejected (ThrownError TypeError "fetch failed")
  ∧ ∃ msg, fst (fetchTasks (world (constant_service (ok_json (JObj ∅)))))
           = Rejected (ThrownError TypeError msg).
Proof.
  split.
  - destruct (fetchTasks_failures (world unreachable_service)) as (_ & Hnet & _).
    apply Hnet. reflexivity.
  - destruct (fetchTasks_failures (world (constant_service (ok_json (JObj ∅)))))
      as (_ & _ & Hbody).
    destruct (Hbody (ok_json (JObj ∅)) eq_refl eq_refl) as [_ Hshape].
    apply (Hshape (JObj ∅) eq_refl). intros l. discriminate.
Defined.

Lemma add_task_create_failure_witness :
  let w := world (constant_service db_down) in
  fst (add_task "Test" "" "2024-02-02T00:00:00Z" w)
  = Fulfilled (failure (ThrownError Error
      "CreateTask failed: 500 Internal Server Error - db down")).
Proof.
  intros w.
  destruct (add_task_create_failure "Test" "" "2024-02-02T00:00:00Z" w db_down
              eq_refl eq_refl) as (Hadd & _).
  rewrite Hadd. reflexivity.
Defined.

Lemma list_markup_blocks_witness :
  UI.list_markup date_part ([listed_task] ++ [listed_task])
  = UI.list_markup date_part [listed_task] ++ UI.list_markup date_part [listed_task].
Proof.
  destruct (list_markup_blocks date_part) as (_ & _ & Happ).
  apply Happ; discriminate.
Defined.

Lemma run_keeps_list_and_count_in_sync_witness :
  in_sync date_part (UI.dom (UI.run date_part midnight a_session loaded_page)).
Proof.
  apply (run_keeps_list_and_count_in_sync date_part midnight a_session loaded_page).
  exists []. split; reflexivity.
Defined.

Lemma run_makes_proper_calls_witness :
  Forall proper_call (UI.calls (UI.dom (UI.run date_part midnight a_session loaded_page)))
  ∧ length (UI.calls (UI.dom (UI.run date_part midnight a_session loaded_page))) = 1.
Proof.
  destruct (run_makes_proper_calls date_part midnight a_session loaded_page)
    as (Hproper & _).
  { constructor. } { cbn. lia. }
  split; [exact Hproper | reflexivity].
Defined.

Lemma status_is_transient_witness :
  let p' := UI.run date_part midnight a_session loaded_page in
  UI.statusEl_display
    (UI.dom (UI.run date_part midnight
               (replicate (length (UI.timeouts (UI.dom p'))) UI.TimeoutElapsed) p'))
  ≠ "block".
Proof.
  intros p'.
  destruct (status_is_transient date_part midnight a_session loaded_page)
    as [_ Hhidden].
  { intros Hblock. discriminate Hblock. }
  exact Hhidden.
Defined.
